(** * Notes frontend: the page component and the theme configuration

    A shallow embedding of [src/notes_frontend/src/app/page.tsx] (the API
    helpers, the [Home] component's state and its event handlers, the
    list-view preview) and of [src/notes_frontend/tailwind.config.js].

    JavaScript strings are sequences of UTF-16 code units; they are modelled
    as [list Z], so that [length], [slice] and [===] mean what they mean in
    the source.  Asynchronous handlers are terms of a small free monad whose
    nodes are the [setX(...)] calls, the [fetch] suspension points and
    [throw]; running such a term against a script of network answers gives
    the states that were rendered while a request was pending and the state
    the handler leaves behind. *)

From Stdlib Require Import ZArith String Ascii.
From stdpp Require Import gmap list.

Local Open Scope Z_scope.

(** ** JavaScript strings *)

Abbreviation jsstring := (list Z).

(** An ASCII literal of the source, as code units. *)
Definition lit (s : string) : jsstring :=
  (λ a, Z.of_N (N_of_ascii a)) <$> list_ascii_of_string s.

(** Every element is a 16-bit code unit. *)
Definition code_units (s : jsstring) : Prop :=
  Forall (λ c, 0 ≤ c < 65536) s.

(** [s.length] *)
Definition js_length (s : jsstring) : Z := Z.of_nat (length s).

(** [s.slice(0, n)] for a literal [n ≥ 0]. *)
Definition slice0 (n : nat) (s : jsstring) : jsstring := take n s.

(** Truthiness of a string: only the empty string is falsy. *)
Definition truthy (s : jsstring) : bool :=
  match s with [] => false | _ :: _ => true end.

(** *** [encodeURIComponent]

    The runtime's built-in, following ECMAScript's [Encode] with the
    unreserved set of [encodeURIComponent]: letters, digits and
    [- _ . ! ~ * ' ( )] are kept, every other code point is written as the
    percent-escaped octets of its UTF-8 form, and an unpaired surrogate
    raises [URIError] (here [None]). *)

Definition between (lo hi c : Z) : bool := (lo <=? c) && (c <=? hi).

Definition uri_unreserved (c : Z) : bool :=
  between 65 90 c || between 97 122 c || between 48 57 c
  || bool_decide (c ∈ [45; 95; 46; 33; 126; 42; 39; 40; 41]).

Definition hex_digit (d : Z) : Z := if d <? 10 then 48 + d else 55 + d.

Definition percent (octet : Z) : jsstring :=
  [37; hex_digit (octet / 16); hex_digit (octet mod 16)].

Definition utf8 (cp : Z) : list Z :=
  if cp <? 128 then [cp]
  else if cp <? 2048 then
    [Z.lor 192 (Z.shiftr cp 6); Z.lor 128 (Z.land cp 63)]
  else if cp <? 65536 then
    [Z.lor 224 (Z.shiftr cp 12);
     Z.lor 128 (Z.land (Z.shiftr cp 6) 63);
     Z.lor 128 (Z.land cp 63)]
  else
    [Z.lor 240 (Z.shiftr cp 18);
     Z.lor 128 (Z.land (Z.shiftr cp 12) 63);
     Z.lor 128 (Z.land (Z.shiftr cp 6) 63);
     Z.lor 128 (Z.land cp 63)].

Definition escape (cp : Z) : jsstring := utf8 cp ≫= percent.

Definition high_surrogate (c : Z) : bool := between 55296 56319 c.
Definition low_surrogate (c : Z) : bool := between 56320 57343 c.

Fixpoint encodeURIComponent (s : jsstring) : option jsstring :=
  match s with
  | [] => Some []
  | c :: rest =>
    if uri_unreserved c then (c ::.) <$> encodeURIComponent rest
    else if low_surrogate c then None
    else if high_surrogate c then
      match rest with
      | c2 :: rest' =>
        if low_surrogate c2
        then (escape ((c - 55296) * 1024 + (c2 - 56320) + 65536) ++.)
               <$> encodeURIComponent rest'
        else None
      | [] => None
      end
    else (escape c ++.) <$> encodeURIComponent rest
  end.

(** A code unit [encodeURIComponent] keeps as it is, or the percent
    sign. *)
Definition uri_safe (c : Z) : Prop := uri_unreserved c = true ∨ c = 37.

(** *** The url-encoded form of a query, in the spec's words

    "[{text}] is percent-encoded": the query is read as a sequence of code
    points (a surrogate pair is one code point; an unpaired surrogate is no
    code point), and each code point is written either as itself, when it
    is one of the unreserved characters, or as the [%XX] escapes of the
    octets of its UTF-8 form. *)

Fixpoint code_points (s : jsstring) : option (list Z) :=
  match s with
  | [] => Some []
  | c :: rest =>
    if low_surrogate c then None
    else if high_surrogate c then
      match rest with
      | c2 :: rest' =>
        if low_surrogate c2
        then ((c - 55296) * 1024 + (c2 - 56320) + 65536 ::.)
               <$> code_points rest'
        else None
      | [] => None
      end
    else (c ::.) <$> code_points rest
  end.

Definition encode_point (cp : Z) : jsstring :=
  if uri_unreserved cp then [cp] else utf8 cp ≫= percent.

Definition url_encoded (s : jsstring) : option jsstring :=
  (λ cps, cps ≫= encode_point) <$> code_points s.

(** No unpaired surrogate: the strings [encodeURIComponent] accepts. *)
Fixpoint well_formed (s : jsstring) : bool :=
  match s with
  | [] => true
  | c :: rest =>
    if low_surrogate c then false
    else if high_surrogate c then
      match rest with
      | c2 :: rest' => low_surrogate c2 && well_formed rest'
      | [] => false
      end
    else well_formed rest
  end.

(** ** Data model *)

Module Note.
(** [type Note = { id; title; content; updated_at; created_at }] *)
Record t := mk {
  id : jsstring;
  title : jsstring;
  content : jsstring;
  updated_at : jsstring;
  created_at : jsstring
}.

#[global] Instance eq_dec : EqDecision t.
Proof. solve_decision. Defined.
End Note.

Module Form.
(** The [{ title, content }] object bound to the form. *)
Record t := mk { title : jsstring; content : jsstring }.

#[global] Instance eq_dec : EqDecision t.
Proof. solve_decision. Defined.
End Form.

(** [type ViewMode = "list" | "edit" | "new"] *)
Inductive ViewMode := ViewList | ViewEdit | ViewNew.

#[global] Instance ViewMode_eq_dec : EqDecision ViewMode.
Proof. solve_decision. Defined.

(** The seven [useState] cells of [Home]. *)
Record State := mkState {
  notes : list Note.t;
  search : jsstring;
  loading : bool;
  selected : option Note.t;
  view : ViewMode;
  formData : Form.t;
  error : option jsstring
}.

(** The initial values given to [useState]. *)
Definition initial : State :=
  {| notes := []; search := []; loading := false; selected := None;
     view := ViewList; formData := Form.mk [] []; error := None |}.

(** The setters.  [setNotes] takes the updater function; the source's
    [setNotes(data)] is [setNotes (λ _, data)]. *)
Definition setNotes (f : list Note.t → list Note.t) (s : State) : State :=
  mkState (f (notes s)) (search s) (loading s) (selected s) (view s)
          (formData s) (error s).
Definition setSearch (q : jsstring) (s : State) : State :=
  mkState (notes s) q (loading s) (selected s) (view s) (formData s) (error s).
Definition setLoading (b : bool) (s : State) : State :=
  mkState (notes s) (search s) b (selected s) (view s) (formData s) (error s).
Definition setSelected (o : option Note.t) (s : State) : State :=
  mkState (notes s) (search s) (loading s) o (view s) (formData s) (error s).
Definition setView (v : ViewMode) (s : State) : State :=
  mkState (notes s) (search s) (loading s) (selected s) v (formData s)
          (error s).
Definition setFormData (f : Form.t → Form.t) (s : State) : State :=
  mkState (notes s) (search s) (loading s) (selected s) (view s)
          (f (formData s)) (error s).
Definition setError (e : option jsstring) (s : State) : State :=
  mkState (notes s) (search s) (loading s) (selected s) (view s)
          (formData s) e.

(** ** The network *)

Inductive Method := GET | POST | PUT | DELETE.

(** What is handed to [fetch]: the URL and the init object.  The body is
    [JSON.stringify] of a [{ title, content }] object, kept as that
    object. *)
Record Request := mkRequest {
  method : Method;
  url : jsstring;
  headers : list (jsstring * jsstring);
  body : option Form.t
}.

#[global] Instance Method_eq_dec : EqDecision Method.
Proof. solve_decision. Defined.
#[global] Instance Request_eq_dec : EqDecision Request.
Proof. solve_decision. Defined.

(** The JSON carried by a response, as far as the declared return types
    [Promise<Note>] and [Promise<Note[]>] go. *)
Inductive Json :=
| JsonNote (n : Note.t)
| JsonNotes (l : list Note.t)
| NotJson.

Record Response := mkResponse { ok : bool; payload : Json }.

(** How a [fetch] promise settles: rejected (no response at all) or
    fulfilled with a response. *)
Inductive FetchResult :=
| Rejected
| Fulfilled (res : Response).

Inductive Exn :=
| Error (message : jsstring)
| TypeError
| SyntaxError
| URIError.

(** ** Asynchronous code

    A handler is a tree of state updates and suspension points.  Values read
    from the component's closure ([view], [selected], [formData],
    [search]) are those of the render the handler belongs to and are passed
    as an argument; updater functions given to a setter see the state at
    the time the update is applied. *)

Inductive Async (A : Type) : Type :=
| Ret (a : A)
| Throw (e : Exn)
| Set_ (u : State → State) (k : Async A)
| Fetch (req : Request) (k : FetchResult → Async A).

Arguments Ret {A} a.
Arguments Throw {A} e.
Arguments Set_ {A} u k.
Arguments Fetch {A} req k.

Fixpoint bind {A B} (m : Async A) (f : A → Async B) : Async B :=
  match m with
  | Ret a => f a
  | Throw e => Throw e
  | Set_ u k => Set_ u (bind k f)
  | Fetch req k => Fetch req (λ r, bind (k r) f)
  end.

#[global] Instance Async_ret : MRet Async := @Ret.
#[global] Instance Async_bind : MBind Async := λ A B f m, bind m f.

(** [try { m } catch { h }] *)
Fixpoint try_catch {A} (m : Async A) (h : Exn → Async A) : Async A :=
  match m with
  | Ret a => Ret a
  | Throw e => h e
  | Set_ u k => Set_ u (try_catch k h)
  | Fetch req k => Fetch req (λ r, try_catch (k r) h)
  end.

(** [try { m } finally { f }]: [f] runs on both exits and the exit of [m]
    is kept. *)
Fixpoint try_finally {A} (m : Async A) (f : Async unit) : Async A :=
  match m with
  | Ret a => bind f (λ _, Ret a)
  | Throw e => bind f (λ _, Throw e)
  | Set_ u k => Set_ u (try_finally k f)
  | Fetch req k => Fetch req (λ r, try_finally (k r) f)
  end.

(** A call of a state setter. *)
Definition set (u : State → State) : Async unit := Set_ u (Ret tt).

(** [await fetch(url, init)] *)
Definition fetch (req : Request) : Async Response :=
  Fetch req (λ r, match r with
                  | Rejected => Throw TypeError
                  | Fulfilled res => Ret res
                  end).

(** [await res.json()] at the declared type [Note].  The source trusts the
    declared type; a body of another shape is outside it and is treated
    like a body that is not JSON, on which [json()] rejects. *)
Definition json_note (res : Response) : Async Note.t :=
  match payload res with
  | JsonNote n => Ret n
  | _ => Throw SyntaxError
  end.

(** [await res.json()] at the declared type [Note[]]. *)
Definition json_notes (res : Response) : Async (list Note.t) :=
  match payload res with
  | JsonNotes l => Ret l
  | _ => Throw SyntaxError
  end.

(** *** Running a handler

    [run m net s] runs [m] from state [s]; each suspension consumes one
    answer of the script [net].  [pending] lists, for every request issued,
    the state rendered while it was outstanding; [writes] lists the state
    after every setter call, in order; [outcome] is [None] when the script
    ran out and the handler is still suspended. *)

Record Trace (A : Type) := mkTrace {
  pending : list (State * Request);
  writes : list State;
  final : State;
  outcome : option (Exn + A)
}.

Arguments mkTrace {A}.
Arguments pending {A}.
Arguments writes {A}.
Arguments final {A}.
Arguments outcome {A}.

Fixpoint run {A} (m : Async A) (net : list FetchResult) (s : State)
  : Trace A :=
  match m with
  | Ret a => mkTrace [] [] s (Some (inr a))
  | Throw e => mkTrace [] [] s (Some (inl e))
  | Set_ u k =>
    let t := run k net (u s) in
    mkTrace (pending t) (u s :: writes t) (final t) (outcome t)
  | Fetch req k =>
    match net with
    | [] => mkTrace [(s, req)] [] s None
    | r :: net' =>
      let t := run (k r) net' s in
      mkTrace ((s, req) :: pending t) (writes t) (final t) (outcome t)
    end
  end.

(** The requests a run issued. *)
Definition requests {A} (t : Trace A) : list Request := snd <$> pending t.

(** ** API helpers *)

Section Api.
(** [process.env.NEXT_PUBLIC_API_URL], possibly undefined. *)
Variable NEXT_PUBLIC_API_URL : option jsstring.

Definition BASE_URL : jsstring :=
  match NEXT_PUBLIC_API_URL with
  | Some u => if truthy u then u else lit "http://localhost:4000/api"
  | None => lit "http://localhost:4000/api"
  end.

(** The URL [fetchNotes] builds; [None] when [encodeURIComponent]
    throws. *)
Definition notes_url (query : jsstring) : option jsstring :=
  if truthy query
  then (λ q, BASE_URL ++ lit "/notes?search=" ++ q)
         <$> encodeURIComponent query
  else Some (BASE_URL ++ lit "/notes").

(** [fetchNotes(query = "")]: an omitted argument is [None]. *)
Definition fetchNotes (query : option jsstring) : Async (list Note.t) :=
  let query := default [] query in
  match notes_url query with
  | None => Throw URIError
  | Some url =>
    res ← fetch (mkRequest GET url [] None);
    if negb (ok res) then Throw (Error (lit "Failed to fetch notes"))
    else json_notes res
  end.

Definition json_headers : list (jsstring * jsstring) :=
  [(lit "Content-Type", lit "application/json")].

Definition createNote (note : Form.t) : Async Note.t :=
  res ← fetch (mkRequest POST (BASE_URL ++ lit "/notes") json_headers
                         (Some note));
  if negb (ok res) then Throw (Error (lit "Failed to create note"))
  else json_note res.

Definition updateNote (id : jsstring) (note : Form.t) : Async Note.t :=
  res ← fetch (mkRequest PUT (BASE_URL ++ lit "/notes/" ++ id) json_headers
                         (Some note));
  if negb (ok res) then Throw (Error (lit "Failed to update note"))
  else json_note res.

Definition deleteNote (id : jsstring) : Async unit :=
  res ← fetch (mkRequest DELETE (BASE_URL ++ lit "/notes/" ++ id) [] None);
  if negb (ok res) then Throw (Error (lit "Failed to delete note"))
  else Ret tt.

(** ** The handlers of [Home]

    The argument [c] is the render whose closure the handler reads. *)

Definition reloadNotes (txt : option jsstring) : Async unit :=
  let txt := default [] txt in
  set (setLoading true);;
  try_finally
    (try_catch
       (data ← fetchNotes (Some txt);
        set (setNotes (λ _, data)))
       (λ _, set (setError (Some (lit "Failed to load notes.")))))
    (set (setLoading false)).

(** The effect run once after the first render. *)
Definition initial_load : Async unit := reloadNotes None.

Definition handleSearch (c : State) : Async unit :=
  reloadNotes (Some (search c));;
  set (setSelected None);;
  set (setView ViewList).

Definition handleSelect (note : Note.t) : Async unit :=
  set (setSelected (Some note));;
  set (setFormData (λ _, Form.mk (Note.title note) (Note.content note)));;
  set (setView ViewEdit).

Definition handleNew : Async unit :=
  set (setSelected None);;
  set (setFormData (λ _, Form.mk [] []));;
  set (setView ViewNew).

(** The [name] attribute of the two inputs of the form. *)
Inductive Field := TitleField | ContentField.

Definition handleFormChange (name : Field) (value : jsstring) : Async unit :=
  set (setFormData (λ prev,
         match name with
         | TitleField => Form.mk value (Form.content prev)
         | ContentField => Form.mk (Form.title prev) value
         end)).

Definition handleFormSubmit (c : State) : Async unit :=
  set (setLoading true);;
  set (setError None);;
  try_finally
    (try_catch
       (match view c, selected c with
        | ViewEdit, Some sel =>
          n ← updateNote (Note.id sel) (formData c);
          set (setNotes (fmap (λ x,
                 if decide (Note.id x = Note.id n) then n else x)));;
          set (setSelected (Some n))
        | ViewNew, _ =>
          n ← createNote (formData c);
          set (setNotes (λ prev, n :: prev));;
          set (setSelected (Some n));;
          set (setView ViewEdit)
        | _, _ => Ret tt
        end)
       (λ _, set (setError (Some (lit "Save failed.")))))
    (set (setLoading false)).

Definition handleDelete (c : State) : Async unit :=
  match selected c with
  | None => Ret tt
  | Some sel =>
    set (setLoading true);;
    try_finally
      (try_catch
         (deleteNote (Note.id sel);;
          set (setNotes (filter (λ n, Note.id n ≠ Note.id sel)));;
          set (setSelected None);;
          set (setView ViewList))
         (λ _, set (setError (Some (lit "Delete failed.")))))
      (set (setLoading false))
  end.
(** The requests the handlers are expected to issue, for the statements
    below. *)
Definition list_request : Request :=
  mkRequest GET (BASE_URL ++ lit "/notes") [] None.
Definition update_request (sel : Note.t) (fd : Form.t) : Request :=
  mkRequest PUT (BASE_URL ++ lit "/notes/" ++ Note.id sel)
            json_headers (Some fd).
Definition create_request (fd : Form.t) : Request :=
  mkRequest POST (BASE_URL ++ lit "/notes") json_headers (Some fd).
Definition delete_request (sel : Note.t) : Request :=
  mkRequest DELETE (BASE_URL ++ lit "/notes/" ++ Note.id sel) [] None.
End Api.

(** ** Rendering *)

(** The ellipsis character U+2026, one code unit. *)
Definition ellipsis : jsstring := [8230].

(** The preview line of a list-view card:
    [n.content.length > 120 ? n.content.slice(0, 120) + "…" : n.content]. *)
Definition card_preview (n : Note.t) : jsstring :=
  if 120 <? js_length (Note.content n)
  then slice0 120 (Note.content n) ++ ellipsis
  else Note.content n.

(** [x || "Untitled"] *)
Definition title_or_untitled (n : Note.t) : jsstring :=
  if truthy (Note.title n) then Note.title n else lit "Untitled".

(** ** [tailwind.config.js] *)

Module Tailwind.
(** [theme.extend]: the objects are key/value maps, the font stack is an
    ordered array. *)
Record Extend := mkExtend {
  colors : gmap jsstring jsstring;
  fontFamily : gmap jsstring (list jsstring)
}.

Record Config := mkConfig {
  content : list jsstring;
  theme_extend : Extend;
  plugins : list jsstring
}.

Definition exports : Config :=
  {| content := [lit "./src/app/**/*.{js,ts,jsx,tsx}"];
     theme_extend :=
       {| colors :=
            <[lit "primary" := lit "#2563eb"]>
            (<[lit "secondary" := lit "#64748b"]>
            (<[lit "accent" := lit "#fde047"]>
            (<[lit "background" := lit "#fff"]> ∅)));
          fontFamily :=
            <[lit "sans" := [lit "system-ui"; lit "sans-serif"]]> ∅ |};
     plugins := [] |}.
End Tailwind.

(** ** Sample data *)

Module Sample.
Definition note (id title content stamp : string) : Note.t :=
  Note.mk (lit id) (lit title) (lit content) (lit stamp) (lit "2024-01-01").

Definition a : Note.t := note "a" "Groceries" "milk, eggs" "2024-01-05".
Definition x : Note.t := note "X" "Old Title" "draft" "2024-01-06".
Definition c : Note.t := note "c" "Ideas" "" "2024-01-07".

(** What the server answers to the edit of [x]. *)
Definition x' : Note.t := note "X" "New Title" "draft" "2024-02-01".

(** What the server answers to a create. *)
Definition d : Note.t := note "d" "Fresh" "text" "2024-02-02".

(** [x] is open in the editor with an edited title; an earlier error is
    still shown. *)
Definition editing : State :=
  {| notes := [a; x; c]; search := lit "gro"; loading := false;
     selected := Some x; view := ViewEdit;
     formData := Form.mk (lit "New Title") (lit "draft");
     error := Some (lit "Failed to load notes.") |}.

(** The form of a new note, filled in. *)
Definition composing : State :=
  {| notes := [a; x; c]; search := []; loading := false;
     selected := None; view := ViewNew;
     formData := Form.mk (lit "Fresh") (lit "text");
     error := None |}.

(** [edit] without a selection. *)
Definition orphan : State :=
  {| notes := [a; x; c]; search := []; loading := false;
     selected := None; view := ViewEdit;
     formData := Form.mk (lit "t") (lit "c");
     error := Some (lit "Delete failed.") |}.

Definition ok_note (n : Note.t) : FetchResult :=
  Fulfilled (mkResponse true (JsonNote n)).
Definition ok_notes (l : list Note.t) : FetchResult :=
  Fulfilled (mkResponse true (JsonNotes l)).
Definition ok_empty : FetchResult := Fulfilled (mkResponse true NotJson).
Definition server_error : FetchResult :=
  Fulfilled (mkResponse false NotJson).
End Sample.

(** ** Events

    What the JSX of [Home] wires to the handlers: [onChange] of the search
    box, [onSubmit] of the search form, [onClick] of "+ New Note", of a
    sidebar row or a card, [onChange] of a form field, [onSubmit] of the
    form and [onClick] of "Delete". *)

Inductive Event :=
| SearchInput (value : jsstring)
| SearchSubmit
| NewClick
| SelectClick (note : Note.t)
| FormInput (name : Field) (value : jsstring)
| FormSubmit
| DeleteClick.

(** The handler an event runs, with the closure of render [c]. *)
Definition handler (env : option jsstring) (ev : Event) (c : State)
  : Async unit :=
  match ev with
  | SearchInput value => set (setSearch value)
  | SearchSubmit => handleSearch env c
  | NewClick => handleNew
  | SelectClick note => handleSelect note
  | FormInput name value => handleFormChange name value
  | FormSubmit => handleFormSubmit env c
  | DeleteClick => handleDelete env c
  end.

(** The state after an event fired on the render of [s]; [net] holds the
    answer to the request the handler may issue (none: the request stays
    outstanding). *)
Definition dispatch (env : option jsstring) (ev : Event)
    (net : list FetchResult) (s : State) : State :=
  final (run (handler env ev s) net s).

(** The states the page can be in: after the initial load, then after any
    sequence of events, each handled before the next one fires. *)
Inductive reachable (env : option jsstring) : State → Prop :=
| reach_load net :
    reachable env (final (run (initial_load env) net initial))
| reach_event s ev net :
    reachable env s → reachable env (dispatch env ev net s).

(** The three messages the handlers put in the error slot. *)
Definition messages : list jsstring :=
  [lit "Failed to load notes."; lit "Save failed."; lit "Delete failed."].

(** ** More of the rendering *)

(** The condition under which a sidebar row gets the highlight class:
    [selected?.id === note.id && view !== "new"]. *)
Definition highlighted (s : State) (note : Note.t) : bool :=
  bool_decide (Note.id <$> selected s = Some (Note.id note))
  && negb (bool_decide (view s = ViewNew)).

(** The [disabled] attribute of the search box, the search button, "+ New
    Note", the sidebar rows, the form fields and the form buttons. *)
Definition controls_disabled (s : State) : bool := loading s.

(** [{error && (...)}]: the banner and its text. *)
Definition banner (s : State) : option jsstring :=
  match error s with
  | Some e => if truthy e then Some e else None
  | None => None
  end.

(** The submit button of the form, by its label; the form is rendered in
    [edit] and [new] only. *)
Definition submit_button (s : State) : option jsstring :=
  match view s with
  | ViewEdit => Some (lit "Save Changes")
  | ViewNew => Some (lit "Create Note")
  | ViewList => None
  end.

(** Whether the "Delete" button is rendered. *)
Definition delete_button (s : State) : bool := bool_decide (view s = ViewEdit).

Section Render.
(** [new Date(date).toLocaleString(undefined, { ... })] with the options of
    the source: the runtime's and the locale's business. *)
Variable toLocaleString : jsstring → jsstring.

Definition formatDate (date : jsstring) : jsstring :=
  if truthy date then toLocaleString date else [].

(** A sidebar row: the two spans, the highlight and the note its click
    selects. *)
Record Row := mkRow {
  row_title : jsstring;
  row_date : jsstring;
  row_highlighted : bool;
  row_click : Event
}.

Inductive Sidebar :=
| SidebarLoading
| SidebarEmpty
| SidebarRows (rows : list Row).

Definition sidebar_row (s : State) (note : Note.t) : Row :=
  mkRow (title_or_untitled note) (formatDate (Note.updated_at note))
        (highlighted s note) (SelectClick note).

(** [loading ? "Loading..." : notes.length === 0 ? "No notes found." :
    <ul>...</ul>] *)
Definition sidebar (s : State) : Sidebar :=
  if loading s then SidebarLoading
  else match notes s with
       | [] => SidebarEmpty
       | _ :: _ => SidebarRows (sidebar_row s <$> notes s)
       end.

(** A card of the list view. *)
Record Card := mkCard {
  card_title : jsstring;
  card_text : jsstring;
  card_date : jsstring;
  card_click : Event
}.

Definition card (n : Note.t) : Card :=
  mkCard (title_or_untitled n) (card_preview n)
         (lit "Updated " ++ formatDate (Note.updated_at n)) (SelectClick n).

(** The cards under the prompt: rendered in view [list] when
    [notes.length > 0]. *)
Definition cards (s : State) : list Card :=
  match view s with
  | ViewList => card <$> notes s
  | _ => []
  end.
End Render.

(** * Properties *)

(** ** URL encoding *)

Example encode_ascii :
  encodeURIComponent (lit "a b&c-_.!~*'()/Z09")
  = Some (lit "a%20b%26c-_.!~*'()%2FZ09").
Proof. reflexivity. Qed.

(** U+00E9, U+20AC and the pair D83D DE00 (U+1F600). *)
Example encode_two_octets : encodeURIComponent [233] = Some (lit "%C3%A9").
Proof. reflexivity. Qed.

Example encode_three_octets :
  encodeURIComponent [8364] = Some (lit "%E2%82%AC").
Proof. reflexivity. Qed.

Example encode_surrogate_pair :
  encodeURIComponent [55357; 56832] = Some (lit "%F0%9F%98%80").
Proof. reflexivity. Qed.

Example encode_lone_surrogate :
  encodeURIComponent [97; 55357] = None ∧ encodeURIComponent [56832] = None.
Proof. split; reflexivity. Qed.

Example search_url :
  notes_url None (lit "a b&c")
  = Some (lit "http://localhost:4000/api/notes?search=a%20b%26c").
Proof. reflexivity. Qed.

(** An unset or empty environment variable falls back to the default. *)
Example base_url_fallback :
  BASE_URL None = lit "http://localhost:4000/api"
  ∧ BASE_URL (Some []) = lit "http://localhost:4000/api"
  ∧ BASE_URL (Some (lit "/api")) = lit "/api".
Proof. repeat split. Qed.

Lemma unreserved_not_surrogate c :
  uri_unreserved c = true →
  low_surrogate c = false ∧ high_surrogate c = false.
Proof.
  unfold uri_unreserved, low_surrogate, high_surrogate, between.
  rewrite !orb_true_iff, !andb_true_iff, !andb_false_iff, bool_decide_eq_true.
  rewrite !Z.leb_le, !Z.leb_gt, !elem_of_cons, elem_of_nil. lia.
Qed.

(** [encodeURIComponent] throws on the strings with an unpaired surrogate
    and on no other. *)
Lemma encodeURIComponent_defined s :
  is_Some (encodeURIComponent s) ↔ well_formed s = true.
Proof.
  remember (length s) as k eqn:Hk. revert s Hk.
  induction (lt_wf k) as [k _ IH]. intros s ->.
  destruct s as [|c rest]; [simpl; split; eauto|].
  simpl. destruct (uri_unreserved c) eqn:Hu.
  - destruct (unreserved_not_surrogate c Hu) as [-> ->].
    rewrite fmap_is_Some. apply (IH (length rest)); simpl; [lia | done].
  - destruct (low_surrogate c); [split; [intros [? [=]] | intros [=]]|].
    destruct (high_surrogate c).
    + destruct rest as [|c2 rest']; [split; [intros [? [=]] | intros [=]]|].
      destruct (low_surrogate c2); simpl;
        [|split; [intros [? [=]] | intros [=]]].
      rewrite fmap_is_Some. apply (IH (length rest')); simpl; [lia | done].
    + rewrite fmap_is_Some. apply (IH (length rest)); simpl; [lia | done].
Qed.

(** A unit that is kept is below 128. *)
Lemma unreserved_ascii c : uri_unreserved c = true → 0 ≤ c < 128.
Proof.
  unfold uri_unreserved, between.
  rewrite !orb_true_iff, !andb_true_iff, bool_decide_eq_true.
  rewrite !Z.leb_le, !elem_of_cons, elem_of_nil. lia.
Qed.

(** The built-in computes the percent-encoding: decoding the surrogate
    pairs first and encoding the code points one by one gives the same
    string, and fails on the same inputs. *)
Lemma encodeURIComponent_url_encoded s :
  encodeURIComponent s = url_encoded s.
Proof.
  unfold url_encoded.
  remember (length s) as k eqn:Hk. revert s Hk.
  induction (lt_wf k) as [k _ IH]. intros s ->.
  destruct s as [|c rest]; [reflexivity|].
  cbn [encodeURIComponent code_points].
  destruct (uri_unreserved c) eqn:Hu.
  - destruct (unreserved_not_surrogate c Hu) as [-> ->].
    assert (Hc : encode_point c = [c])
      by (unfold encode_point; by rewrite Hu).
    rewrite (IH (length rest) ltac:(simpl; lia) rest eq_refl).
    destruct (code_points rest); simpl; [|reflexivity].
    by rewrite Hc.
  - assert (Hc : encode_point c = escape c)
      by (unfold encode_point; by rewrite Hu).
    destruct (low_surrogate c); [reflexivity|].
    destruct (high_surrogate c) eqn:Hh.
    + destruct rest as [|c2 rest']; [reflexivity|].
      destruct (low_surrogate c2) eqn:Hl2; [|reflexivity].
      set (cp := (c - 55296) * 1024 + (c2 - 56320) + 65536).
      assert (Hcp : encode_point cp = escape cp).
      { unfold encode_point. destruct (uri_unreserved cp) eqn:Hucp;
          [|reflexivity].
        apply unreserved_ascii in Hucp. subst cp.
        unfold high_surrogate, low_surrogate, between in Hh, Hl2.
        rewrite andb_true_iff, !Z.leb_le in Hh, Hl2. lia. }
      rewrite (IH (length rest') ltac:(simpl; lia) rest' eq_refl).
      destruct (code_points rest'); simpl; [|reflexivity].
      by rewrite Hcp.
    + rewrite (IH (length rest) ltac:(simpl; lia) rest eq_refl).
      destruct (code_points rest); simpl; [|reflexivity].
      by rewrite Hc.
Qed.

Lemma hex_digit_unreserved d :
  0 ≤ d < 16 → uri_unreserved (hex_digit d) = true.
Proof.
  intros Hd.
  assert (Hcases : d ∈ [0; 1; 2; 3; 4; 5; 6; 7; 8; 9; 10; 11; 12; 13; 14; 15]).
  { rewrite !elem_of_cons. lia. }
  rewrite !elem_of_cons, elem_of_nil in Hcases.
  repeat (destruct Hcases as [->|Hcases]; [reflexivity|]). contradiction.
Qed.

Lemma percent_safe o : 0 ≤ o < 256 → Forall uri_safe (percent o).
Proof.
  intros Ho. unfold percent.
  assert (0 ≤ o / 16 < 16)
    by (split; [apply Z.div_pos | apply Z.div_lt_upper_bound]; lia).
  assert (0 ≤ o mod 16 < 16) by (apply Z.mod_pos_bound; lia).
  repeat apply Forall_cons_2; [by right | left | left | constructor];
    by apply hex_digit_unreserved.
Qed.

Lemma lor_octet a b : 0 ≤ a < 256 → 0 ≤ b < 256 → 0 ≤ Z.lor a b < 256.
Proof.
  intros Ha Hb.
  assert (Hnn : 0 ≤ Z.lor a b) by (apply Z.lor_nonneg; lia).
  split; [exact Hnn|].
  destruct (Z.eq_dec (Z.lor a b) 0) as [->|Hne]; [lia|].
  apply (Z.log2_lt_pow2 _ 8); [lia|]. rewrite Z.log2_lor by lia.
  apply Z.max_lub_lt.
  - destruct (Z.eq_dec a 0) as [->|]; [reflexivity|].
    apply Z.log2_lt_pow2; lia.
  - destruct (Z.eq_dec b 0) as [->|]; [reflexivity|].
    apply Z.log2_lt_pow2; lia.
Qed.

Lemma land_63 x : 0 ≤ Z.land x 63 < 256.
Proof.
  change 63 with (Z.ones 6). rewrite Z.land_ones by lia.
  pose proof (Z.mod_pos_bound x (2 ^ 6) ltac:(lia)). lia.
Qed.

Lemma shiftr_octet cp k :
  0 ≤ k → 0 ≤ cp < 256 * 2 ^ k → 0 ≤ Z.shiftr cp k < 256.
Proof.
  intros Hk Hcp. rewrite Z.shiftr_div_pow2 by exact Hk.
  split; [apply Z.div_pos | apply Z.div_lt_upper_bound]; lia.
Qed.

(** The UTF-8 form of a code point consists of octets. *)
Lemma utf8_octets cp :
  0 ≤ cp < 1114112 → Forall (λ o, 0 ≤ o < 256) (utf8 cp).
Proof.
  intros Hcp. unfold utf8.
  repeat match goal with
         | |- context [?a <? ?b] => destruct (Z.ltb_spec a b)
         end;
    repeat constructor;
    try (apply lor_octet; [lia|]);
    first [ apply land_63 | apply shiftr_octet; lia | lia ].
Qed.

Lemma escape_safe cp : 0 ≤ cp < 1114112 → Forall uri_safe (escape cp).
Proof.
  intros Hcp. unfold escape. apply Forall_bind.
  eapply Forall_impl; [apply utf8_octets, Hcp|]. apply percent_safe.
Qed.

Lemma encodeURIComponent_safe s e :
  code_units s → encodeURIComponent s = Some e → Forall uri_safe e.
Proof.
  remember (length s) as k eqn:Hk. revert s e Hk.
  induction (lt_wf k) as [k _ IH]. intros s e -> Hs.
  destruct s as [|c rest]; [intros [= <-]; constructor|].
  apply Forall_cons in Hs as [Hc Hrest]. simpl.
  destruct (uri_unreserved c) eqn:Hu.
  - destruct (encodeURIComponent rest) as [e'|] eqn:He'; intros [= <-].
    constructor; [by left|].
    apply (IH (length rest) ltac:(simpl; lia) rest e' eq_refl Hrest He').
  - destruct (low_surrogate c); [intros [=]|].
    destruct (high_surrogate c) eqn:Hh.
    + destruct rest as [|c2 rest']; [intros [=]|].
      apply Forall_cons in Hrest as [Hc2 Hrest'].
      destruct (low_surrogate c2) eqn:Hl2; [|intros [=]].
      destruct (encodeURIComponent rest') as [e'|] eqn:He'; intros [= <-].
      apply Forall_app. split.
      * apply escape_safe.
        unfold high_surrogate, low_surrogate, between in Hh, Hl2.
        rewrite andb_true_iff, !Z.leb_le in Hh, Hl2. lia.
      * apply (IH (length rest') ltac:(simpl; lia) rest' e' eq_refl
                  Hrest' He').
    + destruct (encodeURIComponent rest) as [e'|] eqn:He'; intros [= <-].
      apply Forall_app. split; [apply escape_safe; lia|].
      apply (IH (length rest) ltac:(simpl; lia) rest e' eq_refl Hrest He').
Qed.

(** What [encodeURIComponent] lets through is none of the characters that
    structure a URL. *)
Lemma uri_safe_not_reserved c :
  uri_safe c → c ∉ lit "&=#?/+ :;,@$[]".
Proof.
  intros Hsafe Hin.
  assert (Hall : Forall (λ c, uri_unreserved c = false ∧ c ≠ 37)
                        (lit "&=#?/+ :;,@$[]"))
    by (apply (bool_decide_unpack _); vm_compute; exact I).
  destruct (proj1 (Forall_forall _ _) Hall c Hin) as [Hu Hne].
  destruct Hsafe; congruence.
Qed.

(** ** Lists of notes *)

Section NoteLists.
Implicit Types (l : list Note.t) (n x : Note.t) (i : jsstring).

(** [prev.map((x) => (x.id === n.id ? n : x))], position by position. *)
Lemma replace_lookup n l k :
  ((λ x, if decide (Note.id x = Note.id n) then n else x) <$> l) !! k
  = (λ x, if decide (Note.id x = Note.id n) then n else x) <$> l !! k.
Proof. apply list_lookup_fmap. Qed.

Lemma replace_hit n l k x :
  l !! k = Some x → Note.id x = Note.id n →
  ((λ x, if decide (Note.id x = Note.id n) then n else x) <$> l) !! k
  = Some n.
Proof.
  intros Hk Hid. rewrite replace_lookup, Hk. simpl.
  destruct (decide _); [reflexivity | contradiction].
Qed.

Lemma replace_miss n l k x :
  l !! k = Some x → Note.id x ≠ Note.id n →
  ((λ x, if decide (Note.id x = Note.id n) then n else x) <$> l) !! k
  = Some x.
Proof.
  intros Hk Hid. rewrite replace_lookup, Hk. simpl.
  destruct (decide _); [contradiction | reflexivity].
Qed.

(** A filter whose predicate holds everywhere keeps the list. *)
Lemma filter_all (P : Note.t → Prop) `{!∀ x, Decision (P x)} l :
  Forall P l → filter P l = l.
Proof.
  induction 1 as [|x l Hx _ IH]; [reflexivity|].
  rewrite filter_cons_True by assumption. by rewrite IH.
Qed.

(** With unique ids, filtering an id out removes the one note that has
    it and nothing else. *)
Lemma filter_out_unique i l1 x l2 :
  NoDup (Note.id <$> (l1 ++ x :: l2)) → Note.id x = i →
  filter (λ n, Note.id n ≠ i) (l1 ++ x :: l2) = l1 ++ l2.
Proof.
  intros Hnd Hid. rewrite fmap_app, fmap_cons in Hnd.
  apply NoDup_app in Hnd as (_ & Hl1 & Hnd).
  apply NoDup_cons in Hnd as [Hl2 _].
  rewrite filter_app, filter_cons_False by (intros H; by apply H).
  f_equal; apply filter_all, Forall_forall; intros y Hy Hyid.
  - apply (Hl1 (Note.id y)); [by apply list_elem_of_fmap_2|].
    rewrite Hyid, <- Hid. apply list_elem_of_here.
  - apply Hl2. rewrite Hid, <- Hyid. by apply list_elem_of_fmap_2.
Qed.
End NoteLists.

(** ** Form submission *)

(** Case analysis on how a [fetch] settled: rejected, or fulfilled with
    either [ok] flag and either kind of payload. *)
Ltac settle r :=
  let res := fresh "res" in
  let o := fresh "ok" in
  let p := fresh "payload" in
  destruct r as [|res]; [|destruct res as [o p]; destruct o, p].

(** Rewrite what the closure reads on the handler's side of an equation
    only. *)
Ltac read_closure Hv Hsel :=
  match goal with
  | |- _ = ?rhs =>
    let R := fresh "R" in
    set (R := rhs); rewrite Hv, Hsel; subst R
  end.

Section Submit.
Context (env : option jsstring).

(** [updateNote] returns [n] exactly when the response is ok and carries
    [n]. *)
Lemma updateNote_returns id fd r s n :
  outcome (run (updateNote env id fd) [r] s) = Some (inr n)
  ↔ r = Fulfilled (mkResponse true (JsonNote n)).
Proof.
  split; [|intros ->; reflexivity].
  settle r; simpl; intros [= <-] || intros [=]; reflexivity.
Qed.

Lemma createNote_returns fd r s n :
  outcome (run (createNote env fd) [r] s) = Some (inr n)
  ↔ r = Fulfilled (mkResponse true (JsonNote n)).
Proof.
  split; [|intros ->; reflexivity].
  settle r; simpl; intros [= <-] || intros [=]; reflexivity.
Qed.

(** A submission in [edit] with a selection, whatever the answer: one
    request, issued with the loading flag set and the error cleared. *)
Lemma edit_submit_pending s sel r :
  view s = ViewEdit → selected s = Some sel →
  pending (run (handleFormSubmit env s) [r] s)
  = [(setError None (setLoading true s),
      update_request env sel (formData s))].
Proof.
  intros Hv Hsel. unfold handleFormSubmit. read_closure Hv Hsel.
  settle r; reflexivity.
Qed.

Lemma edit_submit_success s sel n :
  view s = ViewEdit → selected s = Some sel →
  final (run (handleFormSubmit env s)
             [Fulfilled (mkResponse true (JsonNote n))] s)
  = mkState ((λ x, if decide (Note.id x = Note.id n) then n else x)
               <$> notes s)
            (search s) false (Some n) (view s) (formData s) None.
Proof.
  intros Hv Hsel. unfold handleFormSubmit. read_closure Hv Hsel.
  reflexivity.
Qed.

Lemma edit_submit_failure s sel r :
  view s = ViewEdit → selected s = Some sel →
  (∃ e, outcome (run (updateNote env (Note.id sel) (formData s)) [r] s)
        = Some (inl e)) →
  final (run (handleFormSubmit env s) [r] s)
  = mkState (notes s) (search s) false (selected s) (view s) (formData s)
            (Some (lit "Save failed.")).
Proof.
  intros Hv Hsel [e He]. unfold handleFormSubmit. read_closure Hv Hsel.
  settle r; try reflexivity. discriminate He.
Qed.

(** The handler always runs to completion and never rethrows. *)
Lemma edit_submit_outcome s r :
  outcome (run (handleFormSubmit env s) [r] s) = Some (inr tt).
Proof.
  unfold handleFormSubmit.
  destruct (view s), (selected s); settle r; reflexivity.
Qed.
End Submit.

(** ** The claims about form submission *)

(** C1: a form submission in [edit] with a note selected, whose Update call
    succeeds with note [n], makes [n] the selected note, puts [n] at every
    position of the collection that held a note with [n]'s id, and leaves
    every other position (and the length) as it was. *)
Theorem edit_submit_replaces_matching_note env s sel r n :
  view s = ViewEdit → selected s = Some sel →
  outcome (run (updateNote env (Note.id sel) (formData s)) [r] s)
  = Some (inr n) →
  let s' := final (run (handleFormSubmit env s) [r] s) in
  selected s' = Some n
  ∧ length (notes s') = length (notes s)
  ∧ (∀ k x, notes s !! k = Some x → Note.id x = Note.id n →
            notes s' !! k = Some n)
  ∧ (∀ k x, notes s !! k = Some x → Note.id x ≠ Note.id n →
            notes s' !! k = Some x).
Proof.
  intros Hv Hsel Hok s'. apply updateNote_returns in Hok as ->.
  subst s'. rewrite (edit_submit_success env s sel n Hv Hsel). simpl.
  split; [reflexivity|]. split; [apply length_fmap|].
  split; intros k x Hk Hid; eauto using replace_hit, replace_miss.
Qed.

Lemma edit_submit_replaces_matching_note_witness :
  let s' := final (run (handleFormSubmit None Sample.editing)
                       [Sample.ok_note Sample.x'] Sample.editing) in
  selected s' = Some Sample.x'
  ∧ length (notes s') = 3%nat
  ∧ notes s' !! 1%nat = Some Sample.x'
  ∧ notes s' !! 0%nat = Some Sample.a
  ∧ notes s' !! 2%nat = Some Sample.c.
Proof.
  destruct (edit_submit_replaces_matching_note None Sample.editing Sample.x
              (Sample.ok_note Sample.x') Sample.x')
    as (Hsel & Hlen & Hhit & Hmiss); [reflexivity..|].
  split; [exact Hsel|]. split; [exact Hlen|]. split; [|split].
  - apply (Hhit 1%nat Sample.x); reflexivity.
  - apply (Hmiss 0%nat Sample.a); [reflexivity | discriminate].
  - apply (Hmiss 2%nat Sample.c); [reflexivity | discriminate].
Defined.

(** C2: in [edit], the request of a submission is outstanding with the
    loading flag set and the error slot empty; if the Update call fails the
    state afterwards is the state before with the loading flag reset and
    the error "Save failed."; submitting the same draft again, with a call
    that succeeds, clears that error before the call, applies the update
    and resets the loading flag. *)
Theorem edit_submit_failure_then_retry env s sel r r' n :
  view s = ViewEdit → selected s = Some sel →
  (∃ e, outcome (run (updateNote env (Note.id sel) (formData s)) [r] s)
        = Some (inl e)) →
  outcome (run (updateNote env (Note.id sel) (formData s)) [r'] s)
  = Some (inr n) →
  let t := run (handleFormSubmit env s) [r] s in
  let t' := run (handleFormSubmit env (final t)) [r'] (final t) in
  pending t
  = [(mkState (notes s) (search s) true (selected s) (view s) (formData s)
              None,
      update_request env sel (formData s))]
  ∧ notes (final t) = notes s
  ∧ selected (final t) = selected s
  ∧ error (final t) = Some (lit "Save failed.")
  ∧ loading (final t) = false
  ∧ pending t'
    = [(mkState (notes s) (search s) true (selected s) (view s) (formData s)
                None,
        update_request env sel (formData s))]
  ∧ error (final t') = None
  ∧ loading (final t') = false
  ∧ selected (final t') = Some n
  ∧ notes (final t')
    = (λ x, if decide (Note.id x = Note.id n) then n else x) <$> notes s.
Proof.
  intros Hv Hsel Hfail Hok t t'. apply updateNote_returns in Hok as ->.
  assert (Hfin : final t = mkState (notes s) (search s) false (selected s)
                            (view s) (formData s) (Some (lit "Save failed.")))
    by (apply (edit_submit_failure env s sel r); assumption).
  assert (Hv' : view (final t) = ViewEdit) by (rewrite Hfin; exact Hv).
  assert (Hsel' : selected (final t) = Some sel) by (rewrite Hfin; exact Hsel).
  split; [apply (edit_submit_pending env s sel r Hv Hsel)|].
  rewrite Hfin at 1 2 3 4. do 4 (split; [reflexivity|]).
  subst t'.
  rewrite (edit_submit_pending env _ sel _ Hv' Hsel').
  rewrite (edit_submit_success env _ sel n Hv' Hsel').
  rewrite Hfin. repeat split; reflexivity.
Qed.

Lemma edit_submit_failure_then_retry_witness :
  let s := Sample.editing in
  let t := run (handleFormSubmit None s) [Sample.server_error] s in
  let t' := run (handleFormSubmit None (final t))
                [Sample.ok_note Sample.x'] (final t) in
  pending t
  = [(mkState (notes s) (search s) true (selected s) (view s) (formData s)
              None,
      update_request None Sample.x (formData s))]
  ∧ notes (final t) = notes s
  ∧ selected (final t) = selected s
  ∧ error (final t) = Some (lit "Save failed.")
  ∧ loading (final t) = false
  ∧ pending t'
    = [(mkState (notes s) (search s) true (selected s) (view s) (formData s)
                None,
        update_request None Sample.x (formData s))]
  ∧ error (final t') = None
  ∧ loading (final t') = false
  ∧ selected (final t') = Some Sample.x'
  ∧ notes (final t')
    = (λ x, if decide (Note.id x = Note.id Sample.x') then Sample.x' else x)
        <$> notes s.
Proof.
  apply (edit_submit_failure_then_retry None Sample.editing Sample.x
           Sample.server_error (Sample.ok_note Sample.x') Sample.x');
    try reflexivity.
  eexists; reflexivity.
Defined.

(** C4: a form submission in [new] whose Create call succeeds with note [n]
    puts [n] in front of the collection, selects it and switches the view
    to [edit]; the request issued is the create of the current draft. *)
Theorem new_submit_prepends_created_note env s r n :
  view s = ViewNew →
  outcome (run (createNote env (formData s)) [r] s) = Some (inr n) →
  let t := run (handleFormSubmit env s) [r] s in
  requests t = [create_request env (formData s)]
  ∧ notes (final t) = n :: notes s
  ∧ selected (final t) = Some n
  ∧ view (final t) = ViewEdit.
Proof.
  intros Hv Hok t. apply createNote_returns in Hok as ->.
  subst t. unfold handleFormSubmit. rewrite Hv.
  destruct (selected s); repeat split; reflexivity.
Qed.

Lemma new_submit_prepends_created_note_witness :
  let s := Sample.composing in
  let t := run (handleFormSubmit None s) [Sample.ok_note Sample.d] s in
  requests t = [create_request None (formData s)]
  ∧ notes (final t) = Sample.d :: notes s
  ∧ selected (final t) = Some Sample.d
  ∧ view (final t) = ViewEdit.
Proof.
  apply (new_submit_prepends_created_note None Sample.composing
           (Sample.ok_note Sample.d) Sample.d); reflexivity.
Defined.

(** C9: a form submission in [edit] with nothing selected issues no
    request, whatever the network would answer; its setter calls are
    [setLoading(true)], [setError(null)], [setLoading(false)] in that
    order, so the collection, the selection, the view, the draft (and the
    search text) are as before, the error slot is empty and the loading
    flag ends reset. *)
Theorem edit_submit_without_selection env s net :
  view s = ViewEdit → selected s = None →
  let t := run (handleFormSubmit env s) net s in
  pending t = []
  ∧ outcome t = Some (inr tt)
  ∧ writes t
    = [mkState (notes s) (search s) true (selected s) (view s) (formData s)
               (error s);
       mkState (notes s) (search s) true (selected s) (view s) (formData s)
               None;
       mkState (notes s) (search s) false (selected s) (view s) (formData s)
               None]
  ∧ final t
    = mkState (notes s) (search s) false (selected s) (view s) (formData s)
              None.
Proof.
  intros Hv Hsel t. subst t. unfold handleFormSubmit.
  split; [by rewrite Hv, Hsel|]. split; [by rewrite Hv, Hsel|].
  split; read_closure Hv Hsel; reflexivity.
Qed.

Lemma edit_submit_without_selection_witness :
  let s := Sample.orphan in
  let t := run (handleFormSubmit None s) [Sample.ok_note Sample.x'] s in
  pending t = []
  ∧ outcome t = Some (inr tt)
  ∧ writes t
    = [mkState (notes s) (search s) true (selected s) (view s) (formData s)
               (error s);
       mkState (notes s) (search s) true (selected s) (view s) (formData s)
               None;
       mkState (notes s) (search s) false (selected s) (view s) (formData s)
               None]
  ∧ final t
    = mkState (notes s) (search s) false (selected s) (view s) (formData s)
              None.
Proof.
  apply (edit_submit_without_selection None Sample.orphan
           [Sample.ok_note Sample.x']); reflexivity.
Defined.

(** ** Delete *)

Section Delete.
Context (env : option jsstring).

(** [deleteNote] returns exactly when there is a response and it is ok;
    its body is not read. *)
Lemma deleteNote_returns id r s :
  outcome (run (deleteNote env id) [r] s) = Some (inr tt)
  ↔ ∃ res, r = Fulfilled res ∧ ok res = true.
Proof.
  split.
  - settle r; simpl; intros [=]; eauto.
  - intros ([[] ?] & -> & [=]); reflexivity.
Qed.

(** The whole run of a delete that succeeds. *)
Lemma delete_success s sel res :
  selected s = Some sel → ok res = true →
  run (handleDelete env s) [Fulfilled res] s
  = let s1 := setLoading true s in
    let s2 := setNotes (filter (λ n, Note.id n ≠ Note.id sel)) s1 in
    let s3 := setSelected None s2 in
    let s4 := setView ViewList s3 in
    let s5 := setLoading false s4 in
    mkTrace [(s1, delete_request env sel)] [s1; s2; s3; s4; s5] s5
            (Some (inr tt)).
Proof.
  intros Hsel Hok. unfold handleDelete. rewrite Hsel.
  destruct res as [[] ?]; [reflexivity | discriminate Hok].
Qed.

(** The whole run of a delete that fails. *)
Lemma delete_failure s sel r :
  selected s = Some sel →
  (∃ e, outcome (run (deleteNote env (Note.id sel)) [r] s)
        = Some (inl e)) →
  run (handleDelete env s) [r] s
  = let s1 := setLoading true s in
    let s2 := setError (Some (lit "Delete failed.")) s1 in
    let s3 := setLoading false s2 in
    mkTrace [(s1, delete_request env sel)] [s1; s2; s3] s3
            (Some (inr tt)).
Proof.
  intros Hsel [e He]. unfold handleDelete. rewrite Hsel.
  settle r; try reflexivity; discriminate He.
Qed.

(** Every request of a form submission is outstanding with the error
    slot empty. *)
Lemma submit_pending_error_cleared s net :
  Forall (λ p, error p.1 = None)
         (pending (run (handleFormSubmit env s) net s)).
Proof.
  unfold handleFormSubmit.
  destruct (view s), (selected s), net as [|r net];
    try settle r; simpl; repeat constructor.
Qed.
End Delete.

(** C5: a delete with note [sel] selected issues the Delete request for
    [sel]'s id.  If the call succeeds, the collection afterwards is the
    collection before without the notes whose id is [sel]'s: the others
    all remain, in their order, and when ids are unique exactly one entry
    is gone; the selection is cleared and the view is [list].  If the call
    fails, the error slot holds "Delete failed." and the collection, the
    selection and the view are as before. *)
Theorem delete_removes_selected_note env s sel r :
  selected s = Some sel →
  let t := run (handleDelete env s) [r] s in
  let call := outcome (run (deleteNote env (Note.id sel)) [r] s) in
  requests t = [delete_request env sel]
  ∧ (call = Some (inr tt) →
     notes (final t) = filter (λ n, Note.id n ≠ Note.id sel) (notes s)
     ∧ (∀ x, x ∈ notes (final t)
             ↔ x ∈ notes s ∧ Note.id x ≠ Note.id sel)
     ∧ notes (final t) `sublist_of` notes s
     ∧ (NoDup (Note.id <$> notes s) →
        ∀ l1 x l2, notes s = l1 ++ x :: l2 → Note.id x = Note.id sel →
                   notes (final t) = l1 ++ l2)
     ∧ selected (final t) = None
     ∧ view (final t) = ViewList)
  ∧ ((∃ e, call = Some (inl e)) →
     error (final t) = Some (lit "Delete failed.")
     ∧ notes (final t) = notes s
     ∧ selected (final t) = selected s
     ∧ view (final t) = view s).
Proof.
  intros Hsel t call. split; [|split].
  - subst t. unfold handleDelete. rewrite Hsel. settle r; reflexivity.
  - intros Hok. apply deleteNote_returns in Hok as (res & -> & Hok).
    subst t. rewrite (delete_success env s sel res Hsel Hok). simpl.
    split; [reflexivity|]. split; [|split; [|split]].
    + intros x. rewrite list_elem_of_filter. tauto.
    + apply sublist_filter.
    + intros Hnd l1 x l2 Hs Hid. rewrite Hs in Hnd |- *.
      by apply filter_out_unique.
    + split; reflexivity.
  - intros Hfail. subst t.
    rewrite (delete_failure env s sel r Hsel Hfail). simpl.
    repeat split; reflexivity.
Qed.

Lemma delete_removes_selected_note_witness :
  let s := Sample.editing in
  let t := run (handleDelete None s) [Sample.ok_empty] s in
  let t' := run (handleDelete None s) [Sample.server_error] s in
  (requests t = [delete_request None Sample.x]
   ∧ notes (final t) = [Sample.a; Sample.c]
   ∧ selected (final t) = None
   ∧ view (final t) = ViewList)
  ∧ (error (final t') = Some (lit "Delete failed.")
     ∧ notes (final t') = [Sample.a; Sample.x; Sample.c]
     ∧ selected (final t') = Some Sample.x
     ∧ view (final t') = ViewEdit).
Proof.
  split.
  - destruct (delete_removes_selected_note None Sample.editing Sample.x
                Sample.ok_empty) as (Hreq & Hok & _); [reflexivity|].
    destruct Hok as (_ & _ & _ & Hone & Hsel & Hview); [reflexivity|].
    split; [exact Hreq|]. split; [|split; assumption].
    assert (Hnd : NoDup (Note.id <$> notes Sample.editing))
      by (apply (bool_decide_unpack _); vm_compute; exact I).
    apply (Hone Hnd [Sample.a] Sample.x [Sample.c]); reflexivity.
  - destruct (delete_removes_selected_note None Sample.editing Sample.x
                Sample.server_error) as (_ & _ & Hfail); [reflexivity|].
    apply Hfail. eexists; reflexivity.
Defined.

(** C10: a delete that succeeds from a state whose error slot holds [e],
    with a note selected, never touches the slot: the request is
    outstanding with [e] shown, every setter call leaves [e] in place and
    [e] is still there at the end; a form submission from the same state,
    in [edit] or [new], has its request outstanding with the slot empty. *)
Theorem delete_never_clears_error env s sel e r :
  selected s = Some sel → error s = Some e →
  outcome (run (deleteNote env (Note.id sel)) [r] s) = Some (inr tt) →
  let t := run (handleDelete env s) [r] s in
  (∃ p, pending t = [p] ∧ error p.1 = Some e)
  ∧ Forall (λ w, error w = Some e) (writes t)
  ∧ error (final t) = Some e
  ∧ (∀ r', view s ≠ ViewList →
       ∃ p, pending (run (handleFormSubmit env s) [r'] s) = [p]
            ∧ error p.1 = None).
Proof.
  intros Hsel He Hok t.
  apply deleteNote_returns in Hok as (res & -> & Hok).
  subst t. rewrite (delete_success env s sel res Hsel Hok). simpl.
  split; [eexists; split; [reflexivity | exact He]|].
  split; [repeat constructor; exact He|]. split; [exact He|].
  intros r' Hv.
  pose proof (submit_pending_error_cleared env s [r']) as Hall.
  revert Hall. unfold handleFormSubmit. rewrite Hsel.
  destruct (view s); [contradiction | |]; settle r'; simpl;
    intros Hall; apply Forall_cons in Hall as [Hp _]; eauto.
Qed.

Lemma delete_never_clears_error_witness :
  let s := Sample.editing in
  let t := run (handleDelete None s) [Sample.ok_empty] s in
  error (final t) = Some (lit "Failed to load notes.")
  ∧ Forall (λ w, error w = Some (lit "Failed to load notes.")) (writes t)
  ∧ ∃ p, pending (run (handleFormSubmit None s) [Sample.server_error] s)
         = [p]
         ∧ error p.1 = None.
Proof.
  destruct (delete_never_clears_error None Sample.editing Sample.x
              (lit "Failed to load notes.") Sample.ok_empty)
    as (_ & Hw & Hfin & Hsubmit); [reflexivity..|].
  split; [exact Hfin|]. split; [exact Hw|].
  apply Hsubmit. discriminate.
Defined.

(** ** Listing and search *)

Section Search.
Context (env : option jsstring).

(** [fetchNotes] returns [l] exactly when a URL could be built and the
    response is ok and carries [l]. *)
Lemma fetchNotes_returns q r s l :
  outcome (run (fetchNotes env (Some q)) [r] s) = Some (inr l)
  ↔ is_Some (notes_url env q)
    ∧ r = Fulfilled (mkResponse true (JsonNotes l)).
Proof.
  unfold fetchNotes. simpl. destruct (notes_url env q) as [u|].
  - split.
    + settle r; simpl; intros [=]; subst; eauto.
    + intros [_ ->]. reflexivity.
  - split; [intros [=] | intros [[? [=]] _]].
Qed.

(** The request of [fetchNotes], when a URL could be built. *)
Lemma fetchNotes_requests q u r s :
  notes_url env q = Some u →
  requests (run (fetchNotes env (Some q)) [r] s) = [mkRequest GET u [] None].
Proof.
  intros Hu. unfold fetchNotes. simpl. rewrite Hu. settle r; reflexivity.
Qed.

(** A search submission that got an answer has run to completion, in
    view [list] with nothing selected and the loading flag reset. *)
Lemma search_settles s r :
  let t := run (handleSearch env s) [r] s in
  outcome t = Some (inr tt)
  ∧ view (final t) = ViewList
  ∧ selected (final t) = None
  ∧ loading (final t) = false.
Proof.
  unfold handleSearch, reloadNotes, fetchNotes. simpl.
  destruct (notes_url env (search s)); [settle r|]; repeat split.
Qed.

Lemma search_success s r l :
  outcome (run (fetchNotes env (Some (search s))) [r] s) = Some (inr l) →
  final (run (handleSearch env s) [r] s)
  = mkState l (search s) false None ViewList (formData s) (error s).
Proof.
  intros [[u Hu] ->]%fetchNotes_returns.
  unfold handleSearch, reloadNotes, fetchNotes. simpl. rewrite Hu.
  reflexivity.
Qed.

Lemma search_failure s r :
  (∃ e, outcome (run (fetchNotes env (Some (search s))) [r] s)
        = Some (inl e)) →
  final (run (handleSearch env s) [r] s)
  = mkState (notes s) (search s) false None ViewList (formData s)
            (Some (lit "Failed to load notes.")).
Proof.
  intros [e He]. revert He.
  unfold handleSearch, reloadNotes, fetchNotes. simpl.
  destruct (notes_url env (search s)); [settle r|];
    simpl; intros [=]; reflexivity.
Qed.
End Search.

(** C3, as stated, fails: with [x] open in [edit], a search submission whose
    List/Search call is rejected still ends in view [list] with the
    selection cleared. *)
Lemma failed_search_still_returns_to_list :
  let s := Sample.editing in
  let t := run (handleSearch None s) [Rejected] s in
  view s = ViewEdit
  ∧ selected s = Some Sample.x
  ∧ outcome (run (fetchNotes None (Some (search s))) [Rejected] s)
    = Some (inl TypeError)
  ∧ view (final t) = ViewList
  ∧ selected (final t) = None.
Proof. repeat split. Qed.

(** C3, amended: from [edit] with a note selected, every search submission
    that gets an answer ends in view [list] with the selection cleared,
    whether its List/Search call succeeded or not (when it did not, the
    collection is unchanged and the error slot holds "Failed to load
    notes."); so does a delete whose call succeeds. *)
Theorem edit_to_list_on_search_or_delete env s sel r :
  view s = ViewEdit → selected s = Some sel →
  let t := run (handleSearch env s) [r] s in
  let d := run (handleDelete env s) [r] s in
  (view (final t) = ViewList ∧ selected (final t) = None)
  ∧ ((∃ e, outcome (run (fetchNotes env (Some (search s))) [r] s)
           = Some (inl e)) →
     notes (final t) = notes s
     ∧ error (final t) = Some (lit "Failed to load notes."))
  ∧ (outcome (run (deleteNote env (Note.id sel)) [r] s) = Some (inr tt) →
     view (final d) = ViewList ∧ selected (final d) = None).
Proof.
  intros _ Hsel t d. split; [|split].
  - destruct (search_settles env s r) as (_ & Hv & Hs & _). by split.
  - intros Hfail. subst t. rewrite (search_failure env s r Hfail).
    by split.
  - intros (res & -> & Hok)%deleteNote_returns. subst d.
    rewrite (delete_success env s sel res Hsel Hok). by split.
Qed.

Lemma edit_to_list_on_search_or_delete_witness :
  let s := Sample.editing in
  let t := run (handleSearch None s) [Sample.server_error] s in
  let d := run (handleDelete None s) [Sample.ok_empty] s in
  (view (final t) = ViewList ∧ selected (final t) = None)
  ∧ (notes (final t) = notes s
     ∧ error (final t) = Some (lit "Failed to load notes."))
  ∧ (view (final d) = ViewList ∧ selected (final d) = None).
Proof.
  destruct (edit_to_list_on_search_or_delete None Sample.editing Sample.x
              Sample.server_error) as (Hlist & Hfail & _); [reflexivity..|].
  destruct (edit_to_list_on_search_or_delete None Sample.editing Sample.x
              Sample.ok_empty) as (_ & _ & Hdel); [reflexivity..|].
  split; [exact Hlist|]. split.
  - apply Hfail. eexists; reflexivity.
  - apply Hdel. reflexivity.
Defined.

(** C6, as stated, fails: the query made of the one unpaired surrogate
    D83D is not empty, yet [fetchNotes] issues no request for it, whatever
    the network would answer, and throws [URIError]. *)
Lemma unpaired_surrogate_query_issues_no_request :
  let q := [55357] in
  let t := run (fetchNotes None (Some q)) [Sample.ok_notes []] initial in
  q ≠ [] ∧ requests t = [] ∧ outcome t = Some (inl URIError).
Proof. repeat split. discriminate. Qed.

(** C6, amended: [fetchNotes] with the empty query, or with no argument,
    issues GET [{base}/notes].  With a non-empty query without unpaired
    surrogate it issues GET [{base}/notes?search=e], where [e] is the
    url-encoded query: its code points, each kept when unreserved and
    otherwise written as the [%XX] escapes of its UTF-8 octets; for a query
    of code units, [e] holds only unreserved characters and [%], and none
    of the characters that structure a URL.  With a non-empty query that
    has an unpaired surrogate it issues no request and throws [URIError].
    A response that is not ok makes it throw
    [Error("Failed to fetch notes")].  A search submission with empty
    search text issues the same request as the initial load, with the same
    collection as a result. *)
Theorem fetchNotes_request_target env :
  (∀ r s, requests (run (fetchNotes env (Some [])) [r] s) = [list_request env]
          ∧ requests (run (fetchNotes env None) [r] s) = [list_request env])
  ∧ (∀ q r s,
       q ≠ [] → well_formed q = true →
       ∃ e, url_encoded q = Some e
            ∧ requests (run (fetchNotes env (Some q)) [r] s)
              = [mkRequest GET (BASE_URL env ++ lit "/notes?search=" ++ e)
                           [] None]
            ∧ (code_units q →
               ∀ c, c ∈ e → uri_safe c ∧ c ∉ lit "&=#?/+ :;,@$[]"))
  ∧ (∀ q net s,
       q ≠ [] → well_formed q = false →
       requests (run (fetchNotes env (Some q)) net s) = []
       ∧ outcome (run (fetchNotes env (Some q)) net s)
         = Some (inl URIError))
  ∧ (∀ q res s,
       is_Some (notes_url env q) → ok res = false →
       outcome (run (fetchNotes env (Some q)) [Fulfilled res] s)
       = Some (inl (Error (lit "Failed to fetch notes"))))
  ∧ (∀ s r,
       search s = [] →
       requests (run (handleSearch env s) [r] s) = [list_request env]
       ∧ requests (run (initial_load env) [r] initial) = [list_request env]
       ∧ ∀ l, r = Fulfilled (mkResponse true (JsonNotes l)) →
              notes (final (run (handleSearch env s) [r] s)) = l
              ∧ notes (final (run (initial_load env) [r] initial)) = l).
Proof.
  split; [|split; [|split; [|split]]].
  - intros r s. split; settle r; reflexivity.
  - intros q r s Hq [e He]%encodeURIComponent_defined.
    exists e. split; [by rewrite <- encodeURIComponent_url_encoded|].
    split.
    + apply fetchNotes_requests.
      unfold notes_url. destruct q; [contradiction|]. simpl truthy.
      cbv iota. by rewrite He.
    + intros Hunits c Hc.
      assert (Hsafe : uri_safe c).
      { eapply (proj1 (Forall_forall _ _)); [|exact Hc].
        eapply encodeURIComponent_safe; eassumption. }
      split; [exact Hsafe | by apply uri_safe_not_reserved].
  - intros q net s Hq Hwf.
    assert (Hnone : encodeURIComponent q = None).
    { destruct (encodeURIComponent q) eqn:He; [|reflexivity].
      assert (Hs : is_Some (encodeURIComponent q)) by eauto.
      apply encodeURIComponent_defined in Hs. congruence. }
    assert (Hurl : notes_url env q = None).
    { unfold notes_url. rewrite Hnone. destruct q; [contradiction|].
      reflexivity. }
    unfold fetchNotes. cbn [default from_option id]. rewrite Hurl.
    split; reflexivity.
  - intros q res s [u Hu] Hok. unfold fetchNotes. simpl. rewrite Hu.
    destruct res as [[] p]; [discriminate Hok | reflexivity].
  - intros s r Hs. unfold handleSearch. rewrite Hs.
    split; [settle r; reflexivity|]. split; [settle r; reflexivity|].
    intros l ->. split; reflexivity.
Qed.

Lemma fetchNotes_request_target_witness :
  (url_encoded (lit "a b&c") = Some (lit "a%20b%26c")
   ∧ requests (run (fetchNotes None (Some (lit "a b&c")))
                   [Sample.ok_notes []] initial)
     = [mkRequest GET
                  (lit "http://localhost:4000/api/notes?search=a%20b%26c")
                  [] None]
   ∧ ∀ c, c ∈ lit "a%20b%26c" → uri_safe c ∧ c ∉ lit "&=#?/+ :;,@$[]")
  ∧ (requests (run (fetchNotes None (Some [97; 55357]))
                   [Sample.ok_notes []] initial) = []
     ∧ outcome (run (fetchNotes None (Some [97; 55357]))
                    [Sample.ok_notes []] initial)
       = Some (inl URIError))
  ∧ outcome (run (fetchNotes None (Some (lit "a b&c")))
                 [Sample.server_error] initial)
    = Some (inl (Error (lit "Failed to fetch notes")))
  ∧ requests (run (handleSearch None initial) [Sample.ok_notes [Sample.a]]
                  initial)
    = [list_request None].
Proof.
  destruct (fetchNotes_request_target None)
    as (_ & Hq & Hbad & Hfail & Hempty).
  split; [|split; [|split]].
  - destruct (Hq (lit "a b&c") (Sample.ok_notes []) initial)
      as (e & He & Hreq & Hsafe); [discriminate | reflexivity |].
    assert (e = lit "a%20b%26c") as -> by (injection He as <-; reflexivity).
    split; [reflexivity|]. split; [exact Hreq|].
    apply Hsafe. apply (bool_decide_unpack _). vm_compute. exact I.
  - apply (Hbad [97; 55357]); [discriminate | reflexivity].
  - apply (Hfail (lit "a b&c")); [eexists; reflexivity | reflexivity].
  - apply (Hempty initial (Sample.ok_notes [Sample.a])). reflexivity.
Defined.

(** ** Rendering *)



(** ** Theme *)

(** C8, as stated, fails: the [background] token is not declared as
    [#ffffff]. *)
Lemma background_is_not_ffffff :
  Tailwind.colors (Tailwind.theme_extend Tailwind.exports)
    !! lit "background"
  ≠ Some (lit "#ffffff").
Proof. vm_compute. discriminate. Qed.

(** C8, amended: the theme declares exactly the colour tokens
    [primary = #2563eb], [secondary = #64748b], [accent = #fde047] and
    [background = #fff], and exactly the font family token [sans], the
    ordered list [system-ui], [sans-serif]. *)
Theorem theme_tokens :
  let ext := Tailwind.theme_extend Tailwind.exports in
  dom (Tailwind.colors ext)
  = {[lit "primary"; lit "secondary"; lit "accent"; lit "background"]}
  ∧ Tailwind.colors ext !! lit "primary" = Some (lit "#2563eb")
  ∧ Tailwind.colors ext !! lit "secondary" = Some (lit "#64748b")
  ∧ Tailwind.colors ext !! lit "accent" = Some (lit "#fde047")
  ∧ Tailwind.colors ext !! lit "background" = Some (lit "#fff")
  ∧ dom (Tailwind.fontFamily ext) = {[lit "sans"]}
  ∧ Tailwind.fontFamily ext !! lit "sans"
    = Some [lit "system-ui"; lit "sans-serif"].
Proof.
  simpl. repeat split; vm_compute; reflexivity.
Qed.

(** * Further properties *)

(** ** The API helpers *)

(** X1: [updateNote] and [createNote] issue one PUT, respectively POST,
    with the JSON content type and the draft as body, and write no state;
    each throws its own fixed [Error] exactly when a response arrived and
    was not ok, whatever that response carries. *)
Theorem save_helpers_error env id fd r s :
  let u := run (updateNote env id fd) [r] s in
  let c := run (createNote env fd) [r] s in
  (pending u
   = [(s, mkRequest PUT (BASE_URL env ++ lit "/notes/" ++ id)
                    [(lit "Content-Type", lit "application/json")] (Some fd))]
   ∧ writes u = [] ∧ final u = s)
  ∧ (pending c
     = [(s, mkRequest POST (BASE_URL env ++ lit "/notes")
                      [(lit "Content-Type", lit "application/json")]
                      (Some fd))]
     ∧ writes c = [] ∧ final c = s)
  ∧ (outcome u = Some (inl (Error (lit "Failed to update note")))
     ↔ ∃ res, r = Fulfilled res ∧ ok res = false)
  ∧ (outcome c = Some (inl (Error (lit "Failed to create note")))
     ↔ ∃ res, r = Fulfilled res ∧ ok res = false).
Proof.
  split; [|split; [|split]].
  - settle r; repeat split.
  - settle r; repeat split.
  - split.
    + settle r; simpl; intros [=]; eauto.
    + intros ([[] p] & -> & [=]). reflexivity.
  - split.
    + settle r; simpl; intros [=]; eauto.
    + intros ([[] p] & -> & [=]). reflexivity.
Qed.

(** X2: [deleteNote] issues one DELETE without headers or body and writes
    no state; it returns exactly when a response arrived and was ok, and
    throws [Error("Failed to delete note")] exactly when one arrived and
    was not ok.  It does not read the body: on an ok response that carries
    no JSON it returns, where [updateNote] and [createNote] throw. *)
Theorem deleteNote_outcome env id fd r s :
  let t := run (deleteNote env id) [r] s in
  pending t
  = [(s, mkRequest DELETE (BASE_URL env ++ lit "/notes/" ++ id) [] None)]
  ∧ writes t = [] ∧ final t = s
  ∧ (outcome t = Some (inr tt) ↔ ∃ res, r = Fulfilled res ∧ ok res = true)
  ∧ (outcome t = Some (inl (Error (lit "Failed to delete note")))
     ↔ ∃ res, r = Fulfilled res ∧ ok res = false)
  ∧ (r = Fulfilled (mkResponse true NotJson) →
     outcome t = Some (inr tt)
     ∧ outcome (run (updateNote env id fd) [r] s) = Some (inl SyntaxError)
     ∧ outcome (run (createNote env fd) [r] s) = Some (inl SyntaxError)).
Proof.
  split; [settle r; reflexivity|]. split; [settle r; reflexivity|].
  split; [settle r; reflexivity|]. split; [apply deleteNote_returns|].
  split; [split|].
  - settle r; simpl; intros [=]; eauto.
  - intros ([[] p] & -> & [=]). reflexivity.
  - intros ->. repeat split.
Qed.

Lemma deleteNote_outcome_witness :
  let r := Fulfilled (mkResponse true NotJson) in
  outcome (run (deleteNote None (lit "X")) [r] initial) = Some (inr tt)
  ∧ outcome (run (updateNote None (lit "X") (Form.mk [] []) ) [r] initial)
    = Some (inl SyntaxError)
  ∧ outcome (run (createNote None (Form.mk [] [])) [r] initial)
    = Some (inl SyntaxError).
Proof.
  destruct (deleteNote_outcome None (lit "X") (Form.mk [] [])
              (Fulfilled (mkResponse true NotJson)) initial)
    as (_ & _ & _ & _ & _ & H).
  apply H. reflexivity.
Defined.

(** ** Loading the collection *)

(** X3: [reloadNotes], from any state and for any text whose URL can be
    built, has its one request outstanding with only the loading flag
    changed (set); when [fetchNotes] returns [l] the collection becomes [l],
    whatever it held, and nothing else changes; when [fetchNotes] throws,
    only the error slot changes, to "Failed to load notes."; the loading
    flag ends reset either way. *)
Theorem reloadNotes_replaces env txt u r s :
  notes_url env (default [] txt) = Some u →
  let t := run (reloadNotes env txt) [r] s in
  let call := outcome (run (fetchNotes env txt) [r] s) in
  pending t = [(setLoading true s, mkRequest GET u [] None)]
  ∧ outcome t = Some (inr tt)
  ∧ (∀ l, call = Some (inr l) →
          final t = mkState l (search s) false (selected s) (view s)
                            (formData s) (error s))
  ∧ ((∃ e, call = Some (inl e)) →
     final t = mkState (notes s) (search s) false (selected s) (view s)
                       (formData s) (Some (lit "Failed to load notes."))).
Proof.
  intros Hu t call. subst t call. unfold reloadNotes, fetchNotes.
  destruct txt as [q|]; simpl in Hu |- *.
  - rewrite Hu.
    split; [settle r; reflexivity|]. split; [settle r; reflexivity|].
    split; [intros l | intros [e He]; revert He];
      settle r; simpl; intros [=]; subst; reflexivity.
  - injection Hu as <-.
    split; [settle r; reflexivity|]. split; [settle r; reflexivity|].
    split; [intros l | intros [e He]; revert He];
      settle r; simpl; intros [=]; subst; reflexivity.
Qed.

Lemma reloadNotes_replaces_witness :
  let s := Sample.editing in
  let t := run (reloadNotes None (Some (lit "gro")))
               [Sample.ok_notes [Sample.a]] s in
  let t' := run (reloadNotes None None) [Rejected] s in
  final t = mkState [Sample.a] (search s) false (selected s) (view s)
                    (formData s) (error s)
  ∧ final t' = mkState (notes s) (search s) false (selected s) (view s)
                       (formData s) (Some (lit "Failed to load notes.")).
Proof.
  split.
  - destruct (reloadNotes_replaces None (Some (lit "gro"))
                (lit "http://localhost:4000/api/notes?search=gro")
                (Sample.ok_notes [Sample.a]) Sample.editing)
      as (_ & _ & Hok & _); [reflexivity|].
    apply Hok. reflexivity.
  - destruct (reloadNotes_replaces None None
                (lit "http://localhost:4000/api/notes")
                Rejected Sample.editing)
      as (_ & _ & _ & Hfail); [reflexivity|].
    apply Hfail. eexists; reflexivity.
Defined.

(** X4: a search submission whose text holds an unpaired surrogate issues
    no request at all, whatever the network would answer: the handler runs
    to completion at once, the collection is kept, the error slot holds
    "Failed to load notes.", the selection is cleared and the view is
    [list]. *)
Theorem search_unencodable_text env s net :
  well_formed (search s) = false →
  let t := run (handleSearch env s) net s in
  pending t = []
  ∧ outcome t = Some (inr tt)
  ∧ final t = mkState (notes s) (search s) false None ViewList (formData s)
                      (Some (lit "Failed to load notes.")).
Proof.
  intros Hwf t. subst t.
  assert (Hnone : encodeURIComponent (search s) = None).
  { destruct (encodeURIComponent (search s)) eqn:He; [|reflexivity].
    assert (Hs : is_Some (encodeURIComponent (search s))) by eauto.
    apply encodeURIComponent_defined in Hs. congruence. }
  assert (Hurl : notes_url env (search s) = None).
  { unfold notes_url. rewrite Hnone.
    destruct (search s); [discriminate Hwf | reflexivity]. }
  unfold handleSearch, reloadNotes, fetchNotes. cbn -[notes_url lit].
  rewrite Hurl. repeat split.
Qed.

Lemma search_unencodable_text_witness :
  let s := setSearch [97; 55357] Sample.editing in
  let t := run (handleSearch None s) [Sample.ok_notes []] s in
  pending t = []
  ∧ outcome t = Some (inr tt)
  ∧ final t = mkState (notes s) (search s) false None ViewList (formData s)
                      (Some (lit "Failed to load notes.")).
Proof.
  apply (search_unencodable_text None
           (setSearch [97; 55357] Sample.editing) [Sample.ok_notes []]).
  reflexivity.
Defined.

(** ** More on saving *)

Section NoteIds.
Implicit Types (l : list Note.t) (n x : Note.t).

(** Replacing by id keeps the id found at every position. *)
Lemma replace_ids n l :
  Note.id <$> ((λ x, if decide (Note.id x = Note.id n) then n else x) <$> l)
  = Note.id <$> l.
Proof.
  rewrite <- list_fmap_compose. apply list_fmap_ext. intros _ x _. simpl.
  destruct (decide _); congruence.
Qed.

(** Replacing by an id no note has changes nothing. *)
Lemma replace_absent n l :
  Note.id n ∉ (Note.id <$> l) →
  (λ x, if decide (Note.id x = Note.id n) then n else x) <$> l = l.
Proof.
  intros Hn. rewrite <- (list_fmap_id l) at 2. apply list_fmap_ext.
  intros _ x Hx%list_elem_of_lookup_2. simpl.
  destruct (decide _) as [Hid|]; [|reflexivity].
  destruct Hn. rewrite <- Hid. by apply list_elem_of_fmap_2.
Qed.

(** With unique ids, replacing by id changes the one entry with that id. *)
Lemma replace_unique n l1 x l2 :
  NoDup (Note.id <$> (l1 ++ x :: l2)) → Note.id x = Note.id n →
  (λ x, if decide (Note.id x = Note.id n) then n else x) <$> (l1 ++ x :: l2)
  = l1 ++ n :: l2.
Proof.
  intros Hnd Hid. rewrite fmap_app, fmap_cons in Hnd.
  apply NoDup_app in Hnd as (_ & Hl1 & Hnd).
  apply NoDup_cons in Hnd as [Hl2 _].
  rewrite fmap_app, fmap_cons. destruct (decide _); [|contradiction].
  rewrite !replace_absent; [reflexivity | by rewrite <- Hid |].
  intros Hin. apply (Hl1 _ Hin). rewrite <- Hid. apply list_elem_of_here.
Qed.

(** Filtering an id out leaves no note with that id, keeps ids unique and
    is the identity when no note has the id. *)
Lemma filter_out_gone (i : jsstring) l :
  i ∉ (Note.id <$> filter (λ n, Note.id n ≠ i) l).
Proof.
  intros (x & -> & [Hx _]%list_elem_of_filter)%list_elem_of_fmap.
  by apply Hx.
Qed.

Lemma filter_out_NoDup (i : jsstring) l :
  NoDup (Note.id <$> l) → NoDup (Note.id <$> filter (λ n, Note.id n ≠ i) l).
Proof.
  intros Hnd. eapply sublist_NoDup; [exact Hnd|].
  apply fmap_sublist, sublist_filter.
Qed.

Lemma filter_out_absent (i : jsstring) l :
  i ∉ (Note.id <$> l) → filter (λ n, Note.id n ≠ i) l = l.
Proof.
  intros Hi. apply filter_all, Forall_forall. intros x Hx Hid.
  apply Hi. rewrite <- Hid. by apply list_elem_of_fmap_2.
Qed.
End NoteIds.

(** X5: a successful edit never changes which id sits at which position of
    the collection, whatever note the server returned; so ids that were
    unique stay unique. *)
Theorem edit_submit_keeps_ids env s sel r n :
  view s = ViewEdit → selected s = Some sel →
  outcome (run (updateNote env (Note.id sel) (formData s)) [r] s)
  = Some (inr n) →
  let s' := final (run (handleFormSubmit env s) [r] s) in
  Note.id <$> notes s' = Note.id <$> notes s
  ∧ (NoDup (Note.id <$> notes s) → NoDup (Note.id <$> notes s')).
Proof.
  intros Hv Hsel Hok%updateNote_returns s'. subst r s'.
  rewrite (edit_submit_success env s sel n Hv Hsel). simpl.
  rewrite replace_ids. by split.
Qed.

Lemma edit_submit_keeps_ids_witness :
  let s := Sample.editing in
  let s' := final (run (handleFormSubmit None s) [Sample.ok_note Sample.d] s)
  in
  Note.id <$> notes s' = [lit "a"; lit "X"; lit "c"]
  ∧ NoDup (Note.id <$> notes s').
Proof.
  destruct (edit_submit_keeps_ids None Sample.editing Sample.x
              (Sample.ok_note Sample.d) Sample.d) as [Hids Hnd];
    [reflexivity..|].
  split; [exact Hids|].
  apply Hnd. apply (bool_decide_unpack _). vm_compute. exact I.
Defined.

(** X6: when the note a successful Update returns carries an id that no
    note of the collection has, the collection is left as it was, yet the
    returned note becomes the selected one: the selection is then a note
    that is not in the collection. *)
Theorem edit_submit_foreign_id env s sel r n :
  view s = ViewEdit → selected s = Some sel →
  outcome (run (updateNote env (Note.id sel) (formData s)) [r] s)
  = Some (inr n) →
  Note.id n ∉ (Note.id <$> notes s) →
  let s' := final (run (handleFormSubmit env s) [r] s) in
  notes s' = notes s ∧ selected s' = Some n ∧ n ∉ notes s'.
Proof.
  intros Hv Hsel Hok%updateNote_returns Hn s'. subst r s'.
  rewrite (edit_submit_success env s sel n Hv Hsel). simpl.
  rewrite replace_absent by exact Hn. split; [reflexivity|].
  split; [reflexivity|]. intros Hin. apply Hn. by apply list_elem_of_fmap_2.
Qed.

Lemma edit_submit_foreign_id_witness :
  let s := Sample.editing in
  let s' := final (run (handleFormSubmit None s) [Sample.ok_note Sample.d] s)
  in
  notes s' = notes s ∧ selected s' = Some Sample.d ∧ Sample.d ∉ notes s'.
Proof.
  apply (edit_submit_foreign_id None Sample.editing Sample.x
           (Sample.ok_note Sample.d) Sample.d); try reflexivity.
  apply (bool_decide_unpack _). vm_compute. exact I.
Defined.

(** X7: with unique ids, a successful edit whose returned note has the id
    of an entry of the collection changes that one entry into the returned
    note and no other. *)
Theorem edit_submit_unique_entry env s sel r n l1 x l2 :
  view s = ViewEdit → selected s = Some sel →
  outcome (run (updateNote env (Note.id sel) (formData s)) [r] s)
  = Some (inr n) →
  NoDup (Note.id <$> notes s) →
  notes s = l1 ++ x :: l2 → Note.id x = Note.id n →
  notes (final (run (handleFormSubmit env s) [r] s)) = l1 ++ n :: l2.
Proof.
  intros Hv Hsel Hok%updateNote_returns Hnd Hs Hid. subst r.
  rewrite (edit_submit_success env s sel n Hv Hsel). simpl.
  rewrite Hs in Hnd |- *. by apply replace_unique.
Qed.

Lemma edit_submit_unique_entry_witness :
  notes (final (run (handleFormSubmit None Sample.editing)
                    [Sample.ok_note Sample.x'] Sample.editing))
  = [Sample.a] ++ Sample.x' :: [Sample.c].
Proof.
  apply (edit_submit_unique_entry None Sample.editing Sample.x
           (Sample.ok_note Sample.x') Sample.x' [Sample.a] Sample.x
           [Sample.c]); try reflexivity.
  apply (bool_decide_unpack _). vm_compute. exact I.
Defined.

(** In [new] the handler does not look at the selection. *)
Lemma handleFormSubmit_new env s :
  view s = ViewNew →
  handleFormSubmit env s = handleFormSubmit env (setSelected None s).
Proof.
  intros Hv. unfold handleFormSubmit.
  cbn [view selected formData setSelected]. rewrite Hv.
  destruct (selected s); reflexivity.
Qed.

(** X8: a form submission in [new] whose Create call fails has its request
    outstanding with the loading flag set and the error slot empty, and
    ends with the collection, the selection, the view and the draft as they
    were, the loading flag reset and the error "Save failed.". *)
Theorem new_submit_failure env s r :
  view s = ViewNew →
  (∃ e, outcome (run (createNote env (formData s)) [r] s) = Some (inl e)) →
  let t := run (handleFormSubmit env s) [r] s in
  pending t
  = [(mkState (notes s) (search s) true (selected s) (view s) (formData s)
              None,
      create_request env (formData s))]
  ∧ final t
    = mkState (notes s) (search s) false (selected s) (view s) (formData s)
              (Some (lit "Save failed.")).
Proof.
  intros Hv [e He] t. subst t.
  rewrite (handleFormSubmit_new env s Hv). unfold handleFormSubmit.
  cbn [view selected formData setSelected].
  split; (match goal with |- _ = ?rhs => set (R := rhs) end);
    rewrite Hv; subst R; settle r; try reflexivity; discriminate He.
Qed.

Lemma new_submit_failure_witness :
  let s := Sample.composing in
  let t := run (handleFormSubmit None s) [Rejected] s in
  pending t
  = [(mkState (notes s) (search s) true (selected s) (view s) (formData s)
              None,
      create_request None (formData s))]
  ∧ final t
    = mkState (notes s) (search s) false (selected s) (view s) (formData s)
              (Some (lit "Save failed.")).
Proof.
  apply (new_submit_failure None Sample.composing Rejected);
    [reflexivity | eexists; reflexivity].
Defined.

(** ** More on deleting *)

(** X9: after a successful delete no note of the collection has the
    selected note's id; ids that were unique stay unique; the collection
    is shorter when some note had that id and is left as it was when none
    had. *)
Theorem delete_removes_id env s sel r :
  selected s = Some sel →
  outcome (run (deleteNote env (Note.id sel)) [r] s) = Some (inr tt) →
  let s' := final (run (handleDelete env s) [r] s) in
  (Note.id sel ∉ (Note.id <$> notes s'))
  ∧ (NoDup (Note.id <$> notes s) → NoDup (Note.id <$> notes s'))
  ∧ (Note.id sel ∈ (Note.id <$> notes s) →
     (length (notes s') < length (notes s))%nat)
  ∧ (Note.id sel ∉ (Note.id <$> notes s) → notes s' = notes s).
Proof.
  intros Hsel (res & -> & Hok)%deleteNote_returns s'. subst s'.
  rewrite (delete_success env s sel res Hsel Hok). simpl.
  split; [apply filter_out_gone|]. split; [apply filter_out_NoDup|].
  split; [|apply filter_out_absent].
  intros (x & Hid & Hx)%list_elem_of_fmap.
  apply (length_filter_lt _ _ x Hx). intros Hne. by apply Hne.
Qed.

Lemma delete_removes_id_witness :
  let s := Sample.editing in
  let s' := final (run (handleDelete None s) [Sample.ok_empty] s) in
  (Note.id Sample.x ∉ (Note.id <$> notes s'))
  ∧ NoDup (Note.id <$> notes s')
  ∧ (length (notes s') < 3)%nat.
Proof.
  destruct (delete_removes_id None Sample.editing Sample.x Sample.ok_empty)
    as (Hgone & Hnd & Hlen & _); [reflexivity..|].
  split; [exact Hgone|]. split.
  - apply Hnd. apply (bool_decide_unpack _). vm_compute. exact I.
  - apply Hlen. apply (bool_decide_unpack _). vm_compute. exact I.
Defined.

(** X10: creating a note and deleting it again gives the collection back:
    from [new], a successful create whose note has a fresh id, followed by
    a successful delete fired on the state the create left, issues the
    DELETE for the created note's id and ends in view [list] with nothing
    selected and the collection as it was before the create. *)
Theorem create_then_delete_restores env s r n r' :
  view s = ViewNew →
  outcome (run (createNote env (formData s)) [r] s) = Some (inr n) →
  Note.id n ∉ (Note.id <$> notes s) →
  outcome (run (deleteNote env (Note.id n)) [r'] s) = Some (inr tt) →
  let s1 := dispatch env FormSubmit [r] s in
  let t := run (handler env DeleteClick s1) [r'] s1 in
  requests t = [delete_request env n]
  ∧ notes (final t) = notes s
  ∧ selected (final t) = None
  ∧ view (final t) = ViewList.
Proof.
  intros Hv Hc%createNote_returns Hfresh (res & -> & Hok)%deleteNote_returns.
  subst r. intros s1 t.
  assert (Hs1 : s1 = mkState (n :: notes s) (search s) false (Some n)
                             ViewEdit (formData s) None).
  { subst s1. unfold dispatch, handler, handleFormSubmit. rewrite Hv.
    destruct (selected s); reflexivity. }
  subst t. simpl handler.
  rewrite (delete_success env s1 n res); [|by rewrite Hs1 | exact Hok].
  rewrite Hs1. simpl. rewrite filter_cons_False by (intros H; by apply H).
  rewrite filter_out_absent by exact Hfresh. repeat split.
Qed.

Lemma create_then_delete_restores_witness :
  let s := Sample.composing in
  let s1 := dispatch None FormSubmit [Sample.ok_note Sample.d] s in
  let t := run (handler None DeleteClick s1) [Sample.ok_empty] s1 in
  requests t = [delete_request None Sample.d]
  ∧ notes (final t) = notes s
  ∧ selected (final t) = None
  ∧ view (final t) = ViewList.
Proof.
  apply (create_then_delete_restores None Sample.composing
           (Sample.ok_note Sample.d) Sample.d Sample.ok_empty);
    try reflexivity.
  apply (bool_decide_unpack _). vm_compute. exact I.
Defined.

(** ** Events and reachable states *)

(** Case analysis on an event fired on [s] with script [net]: the handler,
    what its closure reads, and the answer, if any. *)
Ltac answers net :=
  let r := fresh "r" in
  destruct net as [|r net]; [|settle r].

Ltac handler_cases env ev s net :=
  destruct ev;
  unfold dispatch, handler, handleSearch, reloadNotes, fetchNotes, handleNew,
    handleSelect, handleFormChange, handleFormSubmit, handleDelete;
  cbn [default from_option id];
  [ idtac
  | destruct (notes_url env (search s)) eqn:?; [answers net|]
  | idtac
  | idtac
  | idtac
  | destruct (view s) eqn:?, (selected s) eqn:?; answers net
  | destruct (selected s) eqn:?; [answers net|] ].

(** What an event can do to the selection and the view: leave both, or end
    with nothing selected outside [edit], or with a note selected in
    [edit]. *)
Lemma dispatch_selection env ev net s :
  let s' := dispatch env ev net s in
  (selected s' = selected s ∧ view s' = view s)
  ∨ (selected s' = None ∧ view s' ≠ ViewEdit)
  ∨ (is_Some (selected s') ∧ view s' = ViewEdit).
Proof.
  handler_cases env ev s net; simpl;
    solve [ left; split; congruence
          | right; left; split; congruence
          | right; right; split; [eexists; reflexivity | congruence] ].
Qed.

(** What an event can do to the error slot: leave it, empty it, or put one
    of the three messages in it. *)
Lemma dispatch_error env ev net s :
  let s' := dispatch env ev net s in
  error s' = error s ∨ error s' = None
  ∨ ∃ m, m ∈ messages ∧ error s' = Some m.
Proof.
  handler_cases env ev s net; simpl;
    solve [ left; reflexivity
          | right; left; reflexivity
          | right; right; eexists; split; [|reflexivity];
            unfold messages; set_solver ].
Qed.

Lemma reachable_selection env s :
  reachable env s → (is_Some (selected s) ↔ view s = ViewEdit).
Proof.
  induction 1 as [net|s ev net _ IH].
  - unfold initial_load, reloadNotes, fetchNotes. cbn [default from_option id].
    destruct net as [|r net]; [|settle r]; simpl;
      (split; [intros [? [=]] | intros [=]]).
  - destruct (dispatch_selection env ev net s) as [[-> ->]|[[-> Hv]|[Hs ->]]];
      [exact IH | |tauto].
    split; [intros [? [=]] | intros; contradiction].
Qed.

(** X11: on every reachable state a note is selected exactly when the view
    is [edit]. *)
Theorem selection_iff_edit env s :
  reachable env s → (is_Some (selected s) ↔ view s = ViewEdit).
Proof. apply reachable_selection. Qed.

Lemma selection_iff_edit_witness :
  is_Some (selected (dispatch None (SelectClick Sample.x) []
             (final (run (initial_load None)
                         [Sample.ok_notes [Sample.a; Sample.x]] initial))))
  ↔ view (dispatch None (SelectClick Sample.x) []
            (final (run (initial_load None)
                        [Sample.ok_notes [Sample.a; Sample.x]] initial)))
    = ViewEdit.
Proof.
  apply (selection_iff_edit None). apply reach_event. apply reach_load.
Defined.

(** X12: on every reachable state the error slot is empty or holds one of
    "Failed to load notes.", "Save failed." and "Delete failed."; so the
    banner, which shows a truthy error, shows exactly what the slot
    holds. *)
Theorem error_is_a_fixed_message env s :
  reachable env s →
  (error s = None ∨ ∃ m, m ∈ messages ∧ error s = Some m)
  ∧ banner s = error s.
Proof.
  intros Hr.
  assert (Herr : error s = None ∨ ∃ m, m ∈ messages ∧ error s = Some m).
  { induction Hr as [net|s ev net _ IH].
    - unfold initial_load, reloadNotes, fetchNotes.
      cbn [default from_option id].
      destruct net as [|r net]; [|settle r]; simpl;
        solve [ left; reflexivity
              | right; eexists; split; [|reflexivity];
                unfold messages; set_solver ].
    - destruct (dispatch_error env ev net s) as [->|[->|Hm]]; auto. }
  split; [exact Herr|]. unfold banner.
  destruct Herr as [->|(m & Hm & ->)]; [reflexivity|].
  unfold messages in Hm. rewrite !elem_of_cons, elem_of_nil in Hm.
  destruct Hm as [->|[->|[->|[]]]]; reflexivity.
Qed.

Lemma error_is_a_fixed_message_witness :
  let s := dispatch None DeleteClick [Sample.server_error]
             (dispatch None (SelectClick Sample.x) []
                (final (run (initial_load None)
                            [Sample.ok_notes [Sample.a; Sample.x]] initial)))
  in
  (error s = None ∨ ∃ m, m ∈ messages ∧ error s = Some m)
  ∧ banner s = error s.
Proof.
  apply (error_is_a_fixed_message None).
  do 2 apply reach_event. apply reach_load.
Defined.

(** X13: a handler never throws: with any script of answers it has either
    run to completion, or the script was empty and it waits on the single
    request it issued; it issues at most one request; and once it has
    completed from a state whose loading flag was reset, the flag is
    reset. *)
Theorem handlers_settle env ev net s :
  let t := run (handler env ev s) net s in
  (outcome t = Some (inr tt)
   ∨ (net = [] ∧ outcome t = None ∧ length (pending t) = 1%nat))
  ∧ (length (pending t) ≤ 1)%nat
  ∧ (outcome t = Some (inr tt) → loading s = false →
     loading (final t) = false).
Proof.
  handler_cases env ev s net; simpl;
    (split; [solve [left; reflexivity | right; repeat split]|]);
    (split; [lia|]); intros Hdone Hl; first [discriminate Hdone | congruence].
Qed.

Lemma handlers_settle_witness :
  let s := Sample.editing in
  outcome (run (handler None FormSubmit s) [Rejected] s) = Some (inr tt)
  ∧ loading (final (run (handler None FormSubmit s) [Rejected] s)) = false.
Proof.
  destruct (handlers_settle None FormSubmit [Rejected] Sample.editing)
    as ([Hdone|(Hnil & _)] & _ & Hl); [|discriminate Hnil].
  split; [exact Hdone|]. apply Hl; [exact Hdone | reflexivity].
Defined.

Section Gate.
Context (toLocaleString : jsstring → jsstring).

(** X14: while the request of any handler is outstanding, the state
    rendered has the loading flag set, so every control that carries
    [disabled={loading}] is disabled and the sidebar shows "Loading...";
    and nothing is updated ahead of the answer: the collection, the search
    text, the selection, the view and the draft are those of the state the
    event fired on. *)
Theorem pending_is_loading env ev net s :
  Forall (λ p : State * Request,
            loading p.1 = true
            ∧ controls_disabled p.1 = true
            ∧ sidebar toLocaleString p.1 = SidebarLoading
            ∧ notes p.1 = notes s ∧ search p.1 = search s
            ∧ selected p.1 = selected s ∧ view p.1 = view s
            ∧ formData p.1 = formData s)
         (pending (run (handler env ev s) net s)).
Proof.
  handler_cases env ev s net; simpl; repeat constructor; simpl; congruence.
Qed.
End Gate.

(** The URL of a listing starts with [{base}/notes]. *)
Lemma notes_url_prefix env q u :
  notes_url env q = Some u → (BASE_URL env ++ lit "/notes") `prefix_of` u.
Proof.
  unfold notes_url. destruct (truthy q).
  - destruct (encodeURIComponent q) as [e|]; simpl; intros [= <-].
    exists (lit "?search=" ++ e). rewrite <- app_assoc. reflexivity.
  - intros [= <-]. exists []. by rewrite app_nil_r.
Qed.

(** X15: every request the page issues goes to a URL that starts with
    [{base}/notes]; a search submission issues a GET without body, a form
    submission a PUT or POST with the current draft as body, a delete a
    DELETE without body; the other events issue nothing. *)
Theorem requests_by_event env ev net s req :
  req ∈ requests (run (handler env ev s) net s) →
  (BASE_URL env ++ lit "/notes") `prefix_of` url req
  ∧ ((ev = SearchSubmit ∧ method req = GET ∧ body req = None)
     ∨ (ev = FormSubmit ∧ (method req = PUT ∨ method req = POST)
        ∧ body req = Some (formData s))
     ∨ (ev = DeleteClick ∧ method req = DELETE ∧ body req = None)).
Proof.
  assert (Hslash : ∀ id : jsstring,
            (BASE_URL env ++ lit "/notes")
              `prefix_of` (BASE_URL env ++ lit "/notes/" ++ id)).
  { intros id. exists (lit "/" ++ id). rewrite <- app_assoc. reflexivity. }
  assert (Hself : (BASE_URL env ++ lit "/notes")
                    `prefix_of` (BASE_URL env ++ lit "/notes"))
    by reflexivity.
  unfold requests.
  handler_cases env ev s net; simpl;
    rewrite ?elem_of_cons, ?elem_of_nil; intros Hreq;
    repeat (destruct Hreq as [Hreq|Hreq]); try contradiction; subst req;
    simpl;
    (split; [first [ apply Hslash | apply Hself
                   | eapply notes_url_prefix; eassumption ]|]);
    intuition congruence.
Qed.

Lemma requests_by_event_witness :
  let s := Sample.editing in
  let req := update_request None Sample.x (formData s) in
  (BASE_URL None ++ lit "/notes") `prefix_of` url req
  ∧ ((FormSubmit = SearchSubmit ∧ method req = GET ∧ body req = None)
     ∨ (FormSubmit = FormSubmit ∧ (method req = PUT ∨ method req = POST)
        ∧ body req = Some (formData s))
     ∨ (FormSubmit = DeleteClick ∧ method req = DELETE ∧ body req = None)).
Proof.
  apply (requests_by_event None FormSubmit [Rejected] Sample.editing).
  apply list_elem_of_here.
Defined.

(** X16: what an event leaves alone.  Only typing in the search box changes
    the search text; only a click on "+ New Note", on a note or typing in
    the form changes the draft, so a save never replaces what the user
    typed by what the server returned; only a search submission, a form
    submission or a delete changes the collection. *)
Theorem event_frame env ev net s :
  let s' := dispatch env ev net s in
  (search s' = search s ∨ ∃ v, ev = SearchInput v)
  ∧ (formData s' = formData s
     ∨ ev = NewClick ∨ (∃ n, ev = SelectClick n) ∨ ∃ f v, ev = FormInput f v)
  ∧ (notes s' = notes s
     ∨ ev = SearchSubmit ∨ ev = FormSubmit ∨ ev = DeleteClick).
Proof.
  handler_cases env ev s net; simpl; repeat split; eauto 6.
Qed.

(** ** Rendering and events together *)

(** X17: on every reachable state the buttons that are rendered have
    something to act on: where "Delete" is rendered a note is selected and
    a click issues the DELETE for it; where "Save Changes" is rendered a
    note is selected and a submission issues the PUT for it with the
    draft; where "Create Note" is rendered a submission issues the POST of
    the draft. *)
Theorem rendered_buttons_issue_requests env s r :
  reachable env s →
  (delete_button s = true →
   ∃ sel, selected s = Some sel
          ∧ requests (run (handler env DeleteClick s) [r] s)
            = [delete_request env sel])
  ∧ (submit_button s = Some (lit "Save Changes") →
     ∃ sel, selected s = Some sel
            ∧ requests (run (handler env FormSubmit s) [r] s)
              = [update_request env sel (formData s)])
  ∧ (submit_button s = Some (lit "Create Note") →
     requests (run (handler env FormSubmit s) [r] s)
     = [create_request env (formData s)]).
Proof.
  intros Hinv%reachable_selection.
  unfold delete_button, submit_button, handler, handleDelete,
    handleFormSubmit.
  destruct (view s) eqn:Hv; simpl.
  - repeat split; intros [=].
  - destruct Hinv as [_ [sel Hsel]]; [reflexivity|]. rewrite Hsel.
    split; [|split]; [intros _ | intros _ | intros [=]];
      exists sel; (split; [reflexivity|]); settle r; reflexivity.
  - split; [intros [=]|]. split; [intros [=]|]. intros _.
    destruct (selected s); settle r; reflexivity.
Qed.

Lemma rendered_buttons_issue_requests_witness :
  let s := dispatch None (SelectClick Sample.x) []
             (final (run (initial_load None)
                         [Sample.ok_notes [Sample.a; Sample.x]] initial)) in
  (∃ sel, selected s = Some sel
          ∧ requests (run (handler None DeleteClick s) [Rejected] s)
            = [delete_request None sel])
  ∧ (∃ sel, selected s = Some sel
            ∧ requests (run (handler None FormSubmit s) [Rejected] s)
              = [update_request None sel (formData s)]).
Proof.
  destruct (rendered_buttons_issue_requests None
              (dispatch None (SelectClick Sample.x) []
                 (final (run (initial_load None)
                             [Sample.ok_notes [Sample.a; Sample.x]]
                             initial)))
              Rejected) as (Hdel & Hsave & _).
  - apply reach_event. apply reach_load.
  - split; [apply Hdel | apply Hsave]; reflexivity.
Defined.

(** X18: on every reachable state a sidebar row is highlighted exactly
    when a note is selected and the row's note has its id; the test on the
    view in the highlight condition never decides. *)
Theorem highlight_follows_selection env s note :
  reachable env s →
  (highlighted s note = true
   ↔ ∃ sel, selected s = Some sel ∧ Note.id sel = Note.id note).
Proof.
  intros Hinv%reachable_selection. unfold highlighted.
  rewrite andb_true_iff, negb_true_iff, bool_decide_eq_true,
    bool_decide_eq_false.
  split.
  - intros [Hid _]. destruct (selected s) as [sel|]; [|discriminate Hid].
    exists sel. split; [reflexivity|]. by injection Hid.
  - intros (sel & Hsel & Hid). split; [by rewrite Hsel, <- Hid|].
    rewrite (proj1 Hinv) by (by rewrite Hsel). discriminate.
Qed.

Lemma highlight_follows_selection_witness :
  let s := dispatch None (SelectClick Sample.x) []
             (final (run (initial_load None)
                         [Sample.ok_notes [Sample.a; Sample.x]] initial)) in
  highlighted s Sample.x' = true
  ↔ ∃ sel, selected s = Some sel ∧ Note.id sel = Note.id Sample.x'.
Proof.
  apply (highlight_follows_selection None). apply reach_event.
  apply reach_load.
Defined.

Section Clicks.
Context (toLocaleString : jsstring → jsstring).

(** X19: when the loading flag is reset, the sidebar has one row per note,
    in the order of the collection; the row at the position of note [n]
    shows a title that is not empty and its click opens [n]: without any
    request, [n] becomes the selected note, the draft becomes [n]'s title
    and content and the view becomes [edit], the rest of the state being
    kept.  In view [list] the card at that position shows [n]'s preview
    and its click does the same. *)
Theorem click_opens_note env s k n net :
  notes s !! k = Some n →
  let opened :=
    mkState (notes s) (search s) (loading s) (Some n) ViewEdit
            (Form.mk (Note.title n) (Note.content n)) (error s) in
  (loading s = false →
   ∃ rows row,
     sidebar toLocaleString s = SidebarRows rows
     ∧ length rows = length (notes s)
     ∧ rows !! k = Some row
     ∧ row_title row ≠ []
     ∧ pending (run (handler env (row_click row) s) net s) = []
     ∧ dispatch env (row_click row) net s = opened)
  ∧ (view s = ViewList →
     ∃ c,
       cards toLocaleString s !! k = Some c
       ∧ length (cards toLocaleString s) = length (notes s)
       ∧ card_title c ≠ []
       ∧ card_text c = card_preview n
       ∧ pending (run (handler env (card_click c) s) net s) = []
       ∧ dispatch env (card_click c) net s = opened).
Proof.
  intros Hk opened.
  assert (Htitle : title_or_untitled n ≠ []).
  { unfold title_or_untitled. by destruct (Note.title n). }
  split.
  - intros Hl.
    exists (sidebar_row toLocaleString s <$> notes s),
           (sidebar_row toLocaleString s n).
    split.
    { unfold sidebar. rewrite Hl.
      destruct (notes s); [by rewrite lookup_nil in Hk | reflexivity]. }
    split; [apply length_fmap|].
    split; [by rewrite list_lookup_fmap, Hk|].
    split; [exact Htitle|]. split; reflexivity.
  - intros Hv. unfold cards. rewrite Hv.
    exists (card toLocaleString n).
    split; [by rewrite list_lookup_fmap, Hk|].
    split; [apply length_fmap|]. split; [exact Htitle|].
    repeat split.
Qed.

End Clicks.

Lemma click_opens_note_witness :
  let s := setView ViewList (setSelected None Sample.editing) in
  let opened :=
    mkState (notes s) (search s) (loading s) (Some Sample.x) ViewEdit
            (Form.mk (Note.title Sample.x) (Note.content Sample.x))
            (error s) in
  (∃ rows row,
     sidebar (λ d, d) s = SidebarRows rows
     ∧ length rows = length (notes s)
     ∧ rows !! 1%nat = Some row
     ∧ row_title row ≠ []
     ∧ pending (run (handler None (row_click row) s) [] s) = []
     ∧ dispatch None (row_click row) [] s = opened)
  ∧ (∃ c,
       cards (λ d, d) s !! 1%nat = Some c
       ∧ length (cards (λ d, d) s) = length (notes s)
       ∧ card_title c ≠ []
       ∧ card_text c = card_preview Sample.x
       ∧ pending (run (handler None (card_click c) s) [] s) = []
       ∧ dispatch None (card_click c) [] s = opened).
Proof.
  destruct (click_opens_note (λ d, d) None
              (setView ViewList (setSelected None Sample.editing))
              1%nat Sample.x []) as [Hrow Hcard]; [reflexivity|].
  split; [apply Hrow | apply Hcard]; reflexivity.
Defined.

(** X20: opening a note and submitting the form untouched sends the note's
    own title and content back: the request is the PUT to
    [{base}/notes/{id}] of that note with these two fields as body. *)
Theorem select_then_submit_request env s note net r :
  let s1 := dispatch env (SelectClick note) net s in
  requests (run (handler env FormSubmit s1) [r] s1)
  = [mkRequest PUT (BASE_URL env ++ lit "/notes/" ++ Note.id note)
               [(lit "Content-Type", lit "application/json")]
               (Some (Form.mk (Note.title note) (Note.content note)))].
Proof. settle r; reflexivity. Qed.

(** X21: from any state, "+ New Note", typing a title [v] and a content
    [w], and a submission whose Create call returns [n]: the request is
    the POST of [{title: v, content: w}]; afterwards [n] is in front of the
    collection and selected, the view is [edit], the error slot is empty,
    the loading flag reset, the search text kept, and the draft is still
    what was typed, not what the server returned.  "+ New Note" from there
    gives view [new], no selection and an empty draft. *)
Theorem new_note_flow env s v w r n :
  let s1 := dispatch env NewClick [] s in
  let s2 := dispatch env (FormInput TitleField v) [] s1 in
  let s3 := dispatch env (FormInput ContentField w) [] s2 in
  outcome (run (createNote env (formData s3)) [r] s3) = Some (inr n) →
  let t := run (handler env FormSubmit s3) [r] s3 in
  requests t = [create_request env (Form.mk v w)]
  ∧ final t = mkState (n :: notes s) (search s) false (Some n) ViewEdit
                      (Form.mk v w) None
  ∧ dispatch env NewClick [] (final t)
    = mkState (n :: notes s) (search s) false None ViewNew (Form.mk [] [])
              None.
Proof.
  intros s1 s2 s3 Hok%createNote_returns t. subst r. repeat split.
Qed.

Lemma new_note_flow_witness :
  let s := Sample.editing in
  let v := lit "Fresh" in
  let w := lit "text" in
  let s3 := dispatch None (FormInput ContentField w) []
              (dispatch None (FormInput TitleField v) []
                 (dispatch None NewClick [] s)) in
  let t := run (handler None FormSubmit s3) [Sample.ok_note Sample.d] s3 in
  requests t = [create_request None (Form.mk v w)]
  ∧ final t = mkState (Sample.d :: notes s) (search s) false (Some Sample.d)
                      ViewEdit (Form.mk v w) None
  ∧ dispatch None NewClick [] (final t)
    = mkState (Sample.d :: notes s) (search s) false None ViewNew
              (Form.mk [] []) None.
Proof.
  apply (new_note_flow None Sample.editing (lit "Fresh") (lit "text")
           (Sample.ok_note Sample.d) Sample.d).
  reflexivity.
Defined.

(** X22: typing in the two form fields commutes, and of two values typed
    in the same field the second stays; in both cases only the draft
    changes. *)
Theorem form_input_composes env s f v v' w :
  let type f v s := dispatch env (FormInput f v) [] s in
  type TitleField v (type ContentField w s)
  = type ContentField w (type TitleField v s)
  ∧ type TitleField v (type ContentField w s)
    = mkState (notes s) (search s) (loading s) (selected s) (view s)
              (Form.mk v w) (error s)
  ∧ type f v' (type f v s) = type f v' s.
Proof. destruct f; repeat split. Qed.

(** ** More on the preview and on URL encoding *)

(** X23: a preview is never longer than 121 code units nor longer than
    the content, and its first 120 code units are those of the content. *)
Theorem card_preview_bounds n :
  (length (card_preview n) ≤ 121)%nat
  ∧ (length (card_preview n) ≤ length (Note.content n))%nat
  ∧ take 120 (card_preview n) = take 120 (Note.content n).
Proof.
  unfold card_preview, js_length, slice0, ellipsis.
  destruct (Z.ltb_spec 120 (Z.of_nat (length (Note.content n))))
    as [Hlong|Hshort].
  - assert (Hlen : length (take 120 (Note.content n)) = 120%nat)
      by (rewrite length_take; lia).
    rewrite length_app, Hlen. simpl length.
    split; [lia|]. split; [lia|].
    rewrite take_app_le by lia. by rewrite take_take.
  - split; [lia|]. split; reflexivity.
Qed.

(** X24: typing a text [q] of code units in the search box and submitting
    it: whatever request goes out has the URL
    [{base}/notes?search=] followed by an encoding of [q] made only of
    letters, digits, [- _ . ! ~ * ' ( )] and [%]; none of [& = # ? / +],
    space, [: ; , @ $ [ ]] occurs in it, so the text cannot add or cut
    parameters of the request. *)
Theorem typed_search_is_escaped env s q r req :
  code_units q → q ≠ [] →
  let s1 := dispatch env (SearchInput q) [] s in
  req ∈ requests (run (handler env SearchSubmit s1) [r] s1) →
  ∃ e, encodeURIComponent q = Some e
       ∧ req = mkRequest GET (BASE_URL env ++ lit "/notes?search=" ++ e)
                         [] None
       ∧ Forall uri_safe e
       ∧ ∀ c, c ∈ e → c ∉ lit "&=#?/+ :;,@$[]".
Proof.
  intros Hq Hne s1. subst s1.
  unfold dispatch, handler, handleSearch, reloadNotes, fetchNotes, requests.
  cbn -[notes_url lit encodeURIComponent]. unfold notes_url.
  destruct q as [|c q]; [contradiction|]. simpl truthy. cbv iota.
  destruct (encodeURIComponent (c :: q)) as [e|] eqn:He.
  - cbn -[lit encodeURIComponent].
    intros Hreq. exists e. split; [reflexivity|].
    assert (Hsafe : Forall uri_safe e)
      by (eapply encodeURIComponent_safe; eassumption).
    split; [|split; [exact Hsafe|]].
    + revert Hreq. settle r; cbn -[lit];
        rewrite elem_of_cons, elem_of_nil; intros [->|[]]; reflexivity.
    + intros c' Hc'. apply uri_safe_not_reserved.
      by apply (proj1 (Forall_forall _ _) Hsafe).
  - cbn. rewrite elem_of_nil. contradiction.
Qed.

Lemma typed_search_is_escaped_witness :
  let q := lit "a&b=1 #x" in
  let s1 := dispatch None (SearchInput q) [] Sample.editing in
  ∃ e, encodeURIComponent q = Some e
       ∧ mkRequest GET (lit "http://localhost:4000/api/notes?search="
                          ++ lit "a%26b%3D1%20%23x") [] None
         = mkRequest GET (BASE_URL None ++ lit "/notes?search=" ++ e) [] None
       ∧ Forall uri_safe e
       ∧ ∀ c, c ∈ e → c ∉ lit "&=#?/+ :;,@$[]".
Proof.
  apply (typed_search_is_escaped None Sample.editing (lit "a&b=1 #x")
           Rejected).
  - apply (bool_decide_unpack _). vm_compute. exact I.
  - discriminate.
  - apply list_elem_of_here.
Defined.

(** X25: a text made only of letters, digits and [- _ . ! ~ * ' ( )] is
    its own encoding; [fetchNotes] with such a non-empty text issues the
    GET of [{base}/notes?search=] followed by the text as it is. *)
Theorem plain_query_is_sent_verbatim env q r s :
  Forall (λ c, uri_unreserved c = true) q → q ≠ [] →
  encodeURIComponent q = Some q
  ∧ requests (run (fetchNotes env (Some q)) [r] s)
    = [mkRequest GET (BASE_URL env ++ lit "/notes?search=" ++ q) [] None].
Proof.
  intros Hq Hne.
  assert (Henc : encodeURIComponent q = Some q).
  { clear Hne. induction Hq as [|c q Hc _ IH]; [reflexivity|].
    simpl. by rewrite Hc, IH. }
  split; [exact Henc|]. apply fetchNotes_requests. unfold notes_url.
  destruct q; [contradiction|]. simpl truthy. cbv iota. by rewrite Henc.
Qed.

Lemma plain_query_is_sent_verbatim_witness :
  encodeURIComponent (lit "milk_2024") = Some (lit "milk_2024")
  ∧ requests (run (fetchNotes None (Some (lit "milk_2024"))) [Rejected]
                  initial)
    = [mkRequest GET (BASE_URL None ++ lit "/notes?search=" ++ lit "milk_2024")
                 [] None].
Proof.
  apply (plain_query_is_sent_verbatim None (lit "milk_2024") Rejected
           initial).
  - apply (bool_decide_unpack _). vm_compute. exact I.
  - discriminate.
Defined.

(** X26: with nothing selected, the delete handler does nothing at all: no
    request, no setter call, the state as it was.  A form submission in
    view [list] issues no request either, but it does empty the error slot
    and writes the loading flag. *)
Theorem nothing_to_act_on env s net :
  (selected s = None →
   run (handler env DeleteClick s) net s = mkTrace [] [] s (Some (inr tt)))
  ∧ (view s = ViewList →
     let t := run (handler env FormSubmit s) net s in
     pending t = []
     ∧ length (writes t) = 3%nat
     ∧ final t = mkState (notes s) (search s) false (selected s) (view s)
                         (formData s) None).
Proof.
  unfold handler, handleDelete, handleFormSubmit. split.
  - intros ->. reflexivity.
  - intros Hv. cbv zeta.
    split; [by rewrite Hv|]. split; [by rewrite Hv|].
    match goal with |- _ = ?rhs => set (R := rhs) end.
    rewrite Hv. subst R. reflexivity.
Qed.

Lemma nothing_to_act_on_witness :
  let s := setView ViewList (setSelected None Sample.editing) in
  run (handler None DeleteClick s) [Sample.ok_empty] s
  = mkTrace [] [] s (Some (inr tt))
  ∧ final (run (handler None FormSubmit s) [Sample.ok_empty] s)
    = mkState (notes s) (search s) false (selected s) (view s) (formData s)
              None.
Proof.
  destruct (nothing_to_act_on None
              (setView ViewList (setSelected None Sample.editing))
              [Sample.ok_empty]) as [Hdel Hsub].
  split; [apply Hdel; reflexivity|]. apply Hsub. reflexivity.
Defined.
